(** * Afghan proverbs application: the JSON record store and its CRUD handlers

    A shallow embedding of [app.js]: the JavaScript values the program
    manipulates, [JSON.stringify] and [JSON.parse] as the program calls
    them, the backing file, the two store helpers [readProverbs] and
    [writeProverbs], the Express route handlers and [initializeData].

    Modelling conventions.
    - A JavaScript string is carried as the UTF-8 bytes of its well-formed
      text, in a [string].
    - A JavaScript number is [NaN] or an integer.  The program computes
      with numbers only through [Math.max] and [+ 1]; the IEEE-754
      rounding of the addition is written out in [round53].  The model
      follows the integers of magnitude at most 2^53 exactly.  A JSON
      numeral outside that range, or with a fraction or an exponent part,
      denotes a number outside the modelled fragment and [JSON_parse] does
      not accept it; infinities are not modelled.
    - An object is the list of its own properties in insertion order.
      Property names that are array indices, which JavaScript enumerates
      first, are not treated specially, and the properties inherited from
      [Object.prototype] are not modelled: the program reads none of them.
    - The file system is the content of [PROVERBS_FILE]: absent, or a
      text.  Reading an existing file and writing succeed.
    - [console.log] and [console.error] are left out, and so is the route
      [/random-proverb], which draws from [Math.random]. *)

From Stdlib Require Import Decimal DecimalString DecimalN DecimalPos DecimalFacts.
From Stdlib Require Import ZArith List String Ascii Bool Lia.
Import ListNotations.

Local Open Scope string_scope.
Local Open Scope Z_scope.

(* ================================================================== *)
(** ** Characters and strings *)

Definition dquote : ascii := "034"%char.
Definition backslash : ascii := "\"%char.
Definition nl : ascii := "010"%char.

Definition str1 (c : ascii) : string := String c EmptyString.

Fixpoint spaces (n : nat) : string :=
  match n with
  | O => EmptyString
  | S n' => String " " (spaces n')
  end.

Definition is_empty (s : string) : bool :=
  match s with EmptyString => true | String _ _ => false end.

(** Value of a digit in a radix up to 16 ([0-9a-fA-F]). *)
Definition hex_value (c : ascii) : option Z :=
  let n := Z.of_nat (nat_of_ascii c) in
  if (48 <=? n) && (n <=? 57) then Some (n - 48)
  else if (97 <=? n) && (n <=? 102) then Some (n - 87)
  else if (65 <=? n) && (n <=? 70) then Some (n - 55)
  else None.

Definition digit_value (radix : Z) (c : ascii) : option Z :=
  match hex_value c with
  | Some d => if d <? radix then Some d else None
  | None => None
  end.

Definition byte_of_Z (z : Z) : ascii := ascii_of_nat (Z.to_nat z).

(** UTF-8 encoding of a code point (surrogates are encoded like any other
    three-byte code point). *)
Definition utf8_encode (cp : Z) : string :=
  if cp <? 128 then str1 (byte_of_Z cp)
  else if cp <? 2048 then
    String (byte_of_Z (192 + cp / 64)) (str1 (byte_of_Z (128 + cp mod 64)))
  else if cp <? 65536 then
    String (byte_of_Z (224 + cp / 4096))
      (String (byte_of_Z (128 + (cp / 64) mod 64))
         (str1 (byte_of_Z (128 + cp mod 64))))
  else
    String (byte_of_Z (240 + cp / 262144))
      (String (byte_of_Z (128 + (cp / 4096) mod 64))
         (String (byte_of_Z (128 + (cp / 64) mod 64))
            (str1 (byte_of_Z (128 + cp mod 64))))).

(** [s.length]: the number of UTF-16 code units of the text. *)
Fixpoint utf16_length (s : string) : Z :=
  match s with
  | EmptyString => 0
  | String c r =>
      let n := Z.of_nat (nat_of_ascii c) in
      (if (128 <=? n) && (n <? 192) then 0 else if 240 <=? n then 2 else 1)
      + utf16_length r
  end.

(* ================================================================== *)
(** ** Numbers *)

Inductive number : Type :=
| NaN : number
| Int (z : Z) : number.

Definition two53 : Z := 9007199254740992.

(** Round-to-nearest, ties-to-even, onto the integers with a 53-bit
    significand: the result of an IEEE-754 binary64 operation whose exact
    result is the integer [z]. *)
Definition round53 (z : Z) : Z :=
  let a := Z.abs z in
  if a <? two53 then z
  else
    let e := Z.log2 a - 52 in
    let q := Z.shiftr a e in
    let r := a - Z.shiftl q e in
    let half := Z.shiftl 1 (e - 1) in
    let q' := if r <? half then q
              else if half <? r then q + 1
              else if Z.even q then q else q + 1 in
    Z.sgn z * Z.shiftl q' e.

(** [n + 1] *)
Definition num_succ (n : number) : number :=
  match n with
  | NaN => NaN
  | Int z => Int (round53 (z + 1))
  end.

Definition num_eqb (a b : number) : bool :=
  match a, b with
  | Int x, Int y => x =? y
  | _, _ => false
  end.

(** The larger of two numbers as [Math.max] combines them. *)
Definition num_max (a b : number) : number :=
  match a, b with
  | Int x, Int y => Int (Z.max x y)
  | _, _ => NaN
  end.

(* ================================================================== *)
(** ** Values *)

Unset Elimination Schemes.
Inductive value : Type :=
| VUndef : value
| VNull : value
| VBool (b : bool) : value
| VNum (n : number) : value
| VStr (s : string) : value
| VArr (l : list value) : value
| VObj (props : list (string * value)) : value.
Set Elimination Schemes.

Definition obj : Type := list (string * value).

Definition is_undefined (v : value) : bool :=
  match v with VUndef => true | _ => false end.

Definition is_object (v : value) : bool :=
  match v with VObj _ => true | _ => false end.

(** Own property lookup; [undefined] when the key is absent. *)
Fixpoint obj_get (o : obj) (k : string) : value :=
  match o with
  | [] => VUndef
  | (k', v) :: o' => if String.eqb k' k then v else obj_get o' k
  end.

Definition has_key (o : obj) (k : string) : bool :=
  existsb (fun kv => String.eqb (fst kv) k) o.

(** Property definition: an existing key keeps its place, a new key goes
    last. *)
Fixpoint obj_set (o : obj) (k : string) (v : value) : obj :=
  match o with
  | [] => [(k, v)]
  | (k', v') :: o' =>
      if String.eqb k' k then (k', v) :: o' else (k', v') :: obj_set o' k v
  end.

Definition obj_sets (o : obj) (kvs : list (string * value)) : obj :=
  fold_left (fun acc kv => obj_set acc (fst kv) (snd kv)) kvs o.

(** [!!v] *)
Definition ToBoolean (v : value) : bool :=
  match v with
  | VUndef | VNull => false
  | VBool b => b
  | VNum NaN => false
  | VNum (Int z) => negb (z =? 0)
  | VStr s => negb (is_empty s)
  | VArr _ | VObj _ => true
  end.

(** [a || b] *)
Definition js_or (a b : value) : value := if ToBoolean a then a else b.

(** [v === n] for a number [n]. *)
Definition strict_eq_num (v : value) (n : number) : bool :=
  match v with
  | VNum m => num_eqb m n
  | _ => false
  end.

(* ================================================================== *)
(** ** Exceptions *)

Inductive error : Type :=
| ENOENT : error
| SyntaxError : error
| TypeError : error.

Inductive result (A : Type) : Type :=
| Ok (a : A) : result A
| Throw (e : error) : result A.
Arguments Ok {A} a.
Arguments Throw {A} e.

(** [v.k] for the keys the program reads ([id], [length] and the five form
    fields): none of them is an array index or an inherited property other
    than [length]. *)
Definition Get (v : value) (k : string) : result value :=
  match v with
  | VUndef | VNull => Throw TypeError
  | VObj o => Ok (obj_get o k)
  | VArr l => Ok (if String.eqb k "length" then VNum (Int (Z.of_nat (List.length l)))
                  else VUndef)
  | VStr s => Ok (if String.eqb k "length" then VNum (Int (utf16_length s))
                  else VUndef)
  | VBool _ | VNum _ => Ok VUndef
  end.

(** A method of [Array.prototype] is callable on arrays only. *)
Definition as_array (v : value) : result (list value) :=
  match v with
  | VArr l => Ok l
  | _ => Throw TypeError
  end.

(* ================================================================== *)
(** ** [parseInt] and [Math.max] *)

Definition byte (c : ascii) : Z := Z.of_nat (nat_of_ascii c).

Definition ws1 (c : ascii) : bool :=
  let n := byte c in (n =? 32) || ((9 <=? n) && (n <=? 13)).

(** U+00A0 *)
Definition ws2 (c1 c2 : ascii) : bool :=
  (byte c1 =? 194) && (byte c2 =? 160).

(** U+1680, U+2000..U+200A, U+2028, U+2029, U+202F, U+205F, U+3000, U+FEFF *)
Definition ws3 (c1 c2 c3 : ascii) : bool :=
  let a := byte c1 in let b := byte c2 in let c := byte c3 in
  ((a =? 225) && (b =? 154) && (c =? 128))
  || ((a =? 226) && (b =? 128)
      && (((128 <=? c) && (c <=? 138)) || (c =? 168) || (c =? 169) || (c =? 175)))
  || ((a =? 226) && (b =? 129) && (c =? 159))
  || ((a =? 227) && (b =? 128) && (c =? 128))
  || ((a =? 239) && (b =? 187) && (c =? 191)).

(** Leading white space and line terminators, as [parseInt] strips them. *)
Fixpoint trim_start (s : string) : string :=
  match s with
  | EmptyString => s
  | String c1 r1 =>
      if ws1 c1 then trim_start r1
      else
        match r1 with
        | EmptyString => s
        | String c2 r2 =>
            if ws2 c1 c2 then trim_start r2
            else
              match r2 with
              | EmptyString => s
              | String c3 r3 => if ws3 c1 c2 c3 then trim_start r3 else s
              end
        end
  end.

(** Value of the longest prefix of radix digits, [None] when it is empty. *)
Fixpoint digits_acc (radix acc : Z) (s : string) : Z :=
  match s with
  | EmptyString => acc
  | String c r =>
      match digit_value radix c with
      | Some d => digits_acc radix (acc * radix + d) r
      | None => acc
      end
  end.

Definition digits_prefix (radix : Z) (s : string) : option Z :=
  match s with
  | EmptyString => None
  | String c _ =>
      match digit_value radix c with
      | Some _ => Some (digits_acc radix 0 s)
      | None => None
      end
  end.

(** [parseInt(s)], no radix argument. *)
Definition parseInt (s : string) : number :=
  let s1 := trim_start s in
  let '(neg, s2) :=
    match s1 with
    | String c r =>
        if (c =? "-")%char then (true, r)
        else if (c =? "+")%char then (false, r)
        else (false, s1)
    | EmptyString => (false, s1)
    end in
  let '(radix, s3) :=
    match s2 with
    | String c0 (String x r) =>
        if (c0 =? "0")%char && ((x =? "x")%char || (x =? "X")%char)
        then (16, r) else (10, s2)
    | _ => (10, s2)
    end in
  match digits_prefix radix s3 with
  | None => NaN
  | Some m => Int (round53 (if neg then - m else m))
  end.

(** The conversion [Math.max] applies to its arguments.  The ids the
    program stores are numbers; the conversion is written out for
    [undefined], [null], booleans and numbers, and an id of any other type
    is taken to convert to [NaN]. *)
Definition ToNumber (v : value) : number :=
  match v with
  | VUndef => NaN
  | VNull => Int 0
  | VBool b => Int (if b then 1 else 0)
  | VNum n => n
  | VStr _ | VArr _ | VObj _ => NaN
  end.

(** [Math.max(first, ...rest)] *)
Definition Math_max (first : number) (rest : list number) : number :=
  fold_left num_max rest first.

(* ================================================================== *)
(** ** [JSON.stringify(value, null, 2)] *)

Definition string_of_Z (z : Z) : string :=
  if z <? 0
  then String "-" (NilEmpty.string_of_uint (N.to_uint (Z.to_N (- z))))
  else NilEmpty.string_of_uint (N.to_uint (Z.to_N z)).

Definition hex_digit (d : Z) : ascii :=
  byte_of_Z (if d <? 10 then 48 + d else 87 + d).

Definition escape (c : ascii) : string :=
  let n := byte c in
  if (c =? dquote)%char then String backslash (str1 dquote)
  else if (c =? backslash)%char then String backslash (str1 backslash)
  else if n =? 8 then "\b"
  else if n =? 9 then "\t"
  else if n =? 10 then "\n"
  else if n =? 12 then "\f"
  else if n =? 13 then "\r"
  else if n <? 32 then "\u00" ++ String (hex_digit (n / 16)) (str1 (hex_digit (n mod 16)))
  else str1 c.

Fixpoint quote_chars (s : string) : string :=
  match s with
  | EmptyString => EmptyString
  | String c r => escape c ++ quote_chars r
  end.

Definition QuoteJSONString (s : string) : string :=
  String dquote (quote_chars s ++ str1 dquote).

Fixpoint join (sep : string) (items : list string) : string :=
  match items with
  | [] => EmptyString
  | [x] => x
  | x :: rest => x ++ sep ++ join sep rest
  end.

Definition indent (d : nat) : string := spaces (2 * d).

(** The text of an array or object at nesting depth [d] from the texts of
    its elements or members. *)
Definition wrap (op cl : ascii) (d : nat) (items : list string) : string :=
  match items with
  | [] => String op (str1 cl)
  | _ =>
      String op (String nl (indent (S d)
        ++ join (String "," (String nl (indent (S d)))) items
        ++ String nl (indent d ++ str1 cl)))
  end.

(** Serialization at nesting depth [d].  An [undefined] array element is
    written [null]; a property whose value is [undefined] is skipped. *)
Fixpoint ser (d : nat) (v : value) : string :=
  match v with
  | VUndef | VNull => "null"
  | VBool b => if b then "true" else "false"
  | VNum NaN => "null"
  | VNum (Int z) => string_of_Z z
  | VStr s => QuoteJSONString s
  | VArr l => wrap "[" "]" d (map (ser (S d)) l)
  | VObj o =>
      wrap "{" "}" d
        (flat_map (fun kv =>
           match kv with
           | (k, VUndef) => []
           | (k, x) => [QuoteJSONString k ++ ": " ++ ser (S d) x]
           end) o)
  end.

Definition JSON_stringify (v : value) : option string :=
  match v with
  | VUndef => None
  | _ => Some (ser 0 v)
  end.

(* ================================================================== *)
(** ** [JSON.parse] *)

Definition json_ws (c : ascii) : bool :=
  let n := byte c in (n =? 32) || (n =? 9) || (n =? 10) || (n =? 13).

Fixpoint skip_ws (s : string) : string :=
  match s with
  | EmptyString => s
  | String c r => if json_ws c then skip_ws r else s
  end.

Fixpoint expect (lit s : string) : option string :=
  match lit with
  | EmptyString => Some s
  | String c lit' =>
      match s with
      | EmptyString => None
      | String c' s' => if (c =? c')%char then expect lit' s' else None
      end
  end.

Definition digit_cons (c : ascii) : option (uint -> uint) :=
  if (c =? "0")%char then Some D0
  else if (c =? "1")%char then Some D1
  else if (c =? "2")%char then Some D2
  else if (c =? "3")%char then Some D3
  else if (c =? "4")%char then Some D4
  else if (c =? "5")%char then Some D5
  else if (c =? "6")%char then Some D6
  else if (c =? "7")%char then Some D7
  else if (c =? "8")%char then Some D8
  else if (c =? "9")%char then Some D9
  else None.

Fixpoint take_digits (s : string) : uint * string :=
  match s with
  | EmptyString => (Nil, s)
  | String c r =>
      match digit_cons c with
      | Some f => let '(u, rest) := take_digits r in (f u, rest)
      | None => (Nil, s)
      end
  end.

(** [0] or a digit sequence without a leading zero. *)
Definition valid_int (u : uint) : bool :=
  match u with
  | Nil => false
  | D0 Nil => true
  | D0 _ => false
  | _ => true
  end.

Definition frac_or_exp (s : string) : bool :=
  match s with
  | String c _ => (c =? ".")%char || (c =? "e")%char || (c =? "E")%char
  | EmptyString => false
  end.

(** A numeral.  Numerals with a fraction or exponent part, and integers of
    magnitude above 2^53, are outside the modelled numbers and are not
    accepted. *)
Definition parse_number (s : string) : option (number * string) :=
  let '(neg, s1) :=
    match s with
    | String c r => if (c =? "-")%char then (true, r) else (false, s)
    | EmptyString => (false, s)
    end in
  let '(u, rest) := take_digits s1 in
  if valid_int u && negb (frac_or_exp rest) then
    let m := Z.of_N (N.of_uint u) in
    if m <=? two53 then Some (Int (if neg then - m else m), rest) else None
  else None.

Definition simple_escape (e : ascii) : option ascii :=
  if (e =? dquote)%char then Some dquote
  else if (e =? backslash)%char then Some backslash
  else if (e =? "/")%char then Some "/"%char
  else if (e =? "b")%char then Some "008"%char
  else if (e =? "f")%char then Some "012"%char
  else if (e =? "n")%char then Some "010"%char
  else if (e =? "r")%char then Some "013"%char
  else if (e =? "t")%char then Some "009"%char
  else None.

Definition hex4 (h1 h2 h3 h4 : ascii) : option Z :=
  match hex_value h1, hex_value h2, hex_value h3, hex_value h4 with
  | Some a, Some b, Some c, Some d => Some (((a * 16 + b) * 16 + c) * 16 + d)
  | _, _, _, _ => None
  end.

Definition prepend (p : string) (res : option (string * string))
  : option (string * string) :=
  match res with
  | Some (str, rest) => Some (p ++ str, rest)
  | None => None
  end.

(** The low half [lo] of a surrogate pair whose high half is [hi], when
    [hi] and [lo] are such halves. *)
Definition pair_with (hi : Z) (lo : option Z) : option Z :=
  match lo with
  | Some l =>
      if (55296 <=? hi) && (hi <? 56320) && (56320 <=? l) && (l <? 57344)
      then Some (65536 + (hi - 55296) * 1024 + (l - 56320))
      else None
  | None => None
  end.

(** The characters of a string literal after its opening quote, up to and
    including the closing quote. *)
Fixpoint parse_chars (s : string) : option (string * string) :=
  match s with
  | EmptyString => None
  | String c r =>
      if (c =? dquote)%char then Some (EmptyString, r)
      else if (c =? backslash)%char then
        match r with
        | EmptyString => None
        | String e r1 =>
            match simple_escape e with
            | Some x => prepend (str1 x) (parse_chars r1)
            | None =>
                if (e =? "u")%char then
                  match r1 with
                  | String h1 (String h2 (String h3 (String h4 r5))) =>
                      match hex4 h1 h2 h3 h4 with
                      | None => None
                      | Some hi =>
                          match r5 with
                          | String b (String u (String g1 (String g2
                              (String g3 (String g4 r11))))) =>
                              match
                                (if (b =? backslash)%char && (u =? "u")%char
                                 then pair_with hi (hex4 g1 g2 g3 g4)
                                 else None)
                              with
                              | Some cp => prepend (utf8_encode cp) (parse_chars r11)
                              | None => prepend (utf8_encode hi) (parse_chars r5)
                              end
                          | _ => prepend (utf8_encode hi) (parse_chars r5)
                          end
                      end
                  | _ => None
                  end
                else None
            end
        end
      else if byte c <? 32 then None
      else prepend (str1 c) (parse_chars r)
  end.

(** Members are collected in text order; a repeated key overwrites. *)
Definition build_object (members : list (string * value)) : value :=
  VObj (obj_sets [] members).

Fixpoint parse_value (fuel : nat) (s : string) {struct fuel}
  : option (value * string) :=
  match fuel with
  | O => None
  | S fuel' =>
      match skip_ws s with
      | EmptyString => None
      | String c r =>
          if (c =? "n")%char then
            match expect "ull" r with Some r' => Some (VNull, r') | None => None end
          else if (c =? "t")%char then
            match expect "rue" r with Some r' => Some (VBool true, r') | None => None end
          else if (c =? "f")%char then
            match expect "alse" r with Some r' => Some (VBool false, r') | None => None end
          else if (c =? dquote)%char then
            match parse_chars r with
            | Some (str, r') => Some (VStr str, r')
            | None => None
            end
          else if (c =? "[")%char then
            match skip_ws r with
            | String c' r' =>
                if (c' =? "]")%char then Some (VArr [], r')
                else
                  match parse_elements fuel' r with
                  | Some (vs, r'') => Some (VArr vs, r'')
                  | None => None
                  end
            | EmptyString => None
            end
          else if (c =? "{")%char then
            match skip_ws r with
            | String c' r' =>
                if (c' =? "}")%char then Some (VObj [], r')
                else
                  match parse_members fuel' r with
                  | Some (ms, r'') => Some (build_object ms, r'')
                  | None => None
                  end
            | EmptyString => None
            end
          else
            match parse_number (String c r) with
            | Some (n, r') => Some (VNum n, r')
            | None => None
            end
      end
  end

with parse_elements (fuel : nat) (s : string) {struct fuel}
  : option (list value * string) :=
  match fuel with
  | O => None
  | S fuel' =>
      match parse_value fuel' s with
      | None => None
      | Some (v, r) =>
          match skip_ws r with
          | EmptyString => None
          | String c r' =>
              if (c =? ",")%char then
                match parse_elements fuel' r' with
                | Some (vs, r'') => Some (v :: vs, r'')
                | None => None
                end
              else if (c =? "]")%char then Some ([v], r')
              else None
          end
      end
  end

with parse_members (fuel : nat) (s : string) {struct fuel}
  : option (list (string * value) * string) :=
  match fuel with
  | O => None
  | S fuel' =>
      match skip_ws s with
      | EmptyString => None
      | String q r0 =>
          if (q =? dquote)%char then
            match parse_chars r0 with
            | None => None
            | Some (k, r1) =>
                match skip_ws r1 with
                | EmptyString => None
                | String colon r2 =>
                    if (colon =? ":")%char then
                      match parse_value fuel' r2 with
                      | None => None
                      | Some (v, r3) =>
                          match skip_ws r3 with
                          | EmptyString => None
                          | String c r4 =>
                              if (c =? ",")%char then
                                match parse_members fuel' r4 with
                                | Some (ms, r5) => Some ((k, v) :: ms, r5)
                                | None => None
                                end
                              else if (c =? "}")%char then Some ([(k, v)], r4)
                              else None
                          end
                      end
                    else None
                end
            end
          else None
      end
  end.

Definition JSON_parse (text : string) : option value :=
  match parse_value (S (String.length text)) text with
  | Some (v, rest) => if is_empty (skip_ws rest) then Some v else None
  | None => None
  end.

(* ================================================================== *)
(** ** The backing file and the exception monad *)

(** Content of [PROVERBS_FILE]; [None] when the file does not exist. *)
Definition file : Type := option string.

Definition M (A : Type) : Type := file -> result A * file.

Definition ret {A} (a : A) : M A := fun f => (Ok a, f).

Definition throw {A} (e : error) : M A := fun f => (Throw e, f).

Definition bind {A B} (m : M A) (k : A -> M B) : M B :=
  fun f =>
    match m f with
    | (Ok a, f') => k a f'
    | (Throw e, f') => (Throw e, f')
    end.

Notation "x <- m ;; k" := (bind m (fun x => k))
  (at level 61, m at next level, right associativity).
Notation "m ;;; k" := (bind m (fun _ => k))
  (at level 61, right associativity).

Definition lift {A} (r : result A) : M A := fun f => (r, f).

(** [try { body } catch (e) { handler e }] *)
Definition try_catch {A} (body : M A) (handler : error -> M A) : M A :=
  fun f =>
    match body f with
    | (Ok a, f') => (Ok a, f')
    | (Throw e, f') => handler e f'
    end.

Definition fs_readFile : M string :=
  fun f =>
    match f with
    | Some data => (Ok data, f)
    | None => (Throw ENOENT, f)
    end.

Definition fs_writeFile (data : string) : M unit :=
  fun _ => (Ok tt, Some data).

(* ================================================================== *)
(** ** Helper functions for JSON operations *)

Definition readProverbs : M value :=
  try_catch
    (data <- fs_readFile ;;
     match JSON_parse data with
     | Some v => ret v
     | None => throw SyntaxError
     end)
    (fun e =>
       match e with
       | ENOENT => fs_writeFile "[]" ;;; ret (VArr [])
       | _ => throw e
       end).

Definition writeProverbs (proverbs : value) : M unit :=
  match JSON_stringify proverbs with
  | Some text => fs_writeFile text
  | None => throw TypeError
  end.

(* ================================================================== *)
(** ** Array methods with a callback that may throw *)

Section ArrayMethods.
Variable pred : value -> result bool.

Fixpoint find (l : list value) : result value :=
  match l with
  | [] => Ok VUndef
  | p :: l' =>
      match pred p with
      | Throw e => Throw e
      | Ok true => Ok p
      | Ok false => find l'
      end
  end.

Fixpoint findIndex_from (i : Z) (l : list value) : result Z :=
  match l with
  | [] => Ok (-1)
  | p :: l' =>
      match pred p with
      | Throw e => Throw e
      | Ok true => Ok i
      | Ok false => findIndex_from (i + 1) l'
      end
  end.

Definition findIndex (l : list value) : result Z := findIndex_from 0 l.

Fixpoint filter (l : list value) : result (list value) :=
  match l with
  | [] => Ok []
  | p :: l' =>
      match pred p with
      | Throw e => Throw e
      | Ok b =>
          match filter l' with
          | Throw e => Throw e
          | Ok r => Ok (if b then p :: r else r)
          end
      end
  end.
End ArrayMethods.

Fixpoint map_result {A B} (f : A -> result B) (l : list A) : result (list B) :=
  match l with
  | [] => Ok []
  | a :: l' =>
      match f a with
      | Throw e => Throw e
      | Ok b =>
          match map_result f l' with
          | Throw e => Throw e
          | Ok r => Ok (b :: r)
          end
      end
  end.

(** [l[i] = x] for an index inside the array. *)
Fixpoint update_nth (i : nat) (x : value) (l : list value) : list value :=
  match l, i with
  | [], _ => []
  | _ :: l', O => x :: l'
  | y :: l', S i' => y :: update_nth i' x l'
  end.

(** [p => p.id === parseInt(req.params.id)] *)
Definition id_is (id : string) (p : value) : result bool :=
  match Get p "id" with
  | Ok v => Ok (strict_eq_num v (parseInt id))
  | Throw e => Throw e
  end.

(** [p => p.id !== parseInt(req.params.id)] *)
Definition id_is_not (id : string) (p : value) : result bool :=
  match Get p "id" with
  | Ok v => Ok (negb (strict_eq_num v (parseInt id)))
  | Throw e => Throw e
  end.

(** [{ ...v }]: the own properties of an object.  The handlers spread only
    [req.body] and an element found by its numeric [id], both objects. *)
Definition spread (v : value) : obj :=
  match v with
  | VObj o => o
  | _ => []
  end.

(* ================================================================== *)
(** ** Routes *)

Inductive response : Type :=
| Render (view : string) (locals : obj) : response
| Redirect (url : string) : response.

Definition handler : Type := file -> response * file.

(** A route body inside its [try], and the response of its [catch]. *)
Definition try_respond (body : M response) (on_error : error -> response)
  : handler :=
  fun f =>
    match body f with
    | (Ok r, f') => (r, f')
    | (Throw e, f') => (on_error e, f')
    end.

(** [GET /] *)
Definition home : handler :=
  try_respond
    (proverbs <- readProverbs ;;
     ret (Render "home" [("proverbs", proverbs)]))
    (fun _ => Render "home" [("proverbs", VArr []);
                             ("error", VStr "Failed to load proverbs")]).

(** [GET /proverb/:id] *)
Definition get_proverb (id : string) : handler :=
  try_respond
    (proverbs <- readProverbs ;;
     l <- lift (as_array proverbs) ;;
     proverb <- lift (find (id_is id) l) ;;
     if negb (ToBoolean proverb)
     then ret (Redirect "/?error=Proverb not found")
     else ret (Render "proverb-details" [("proverb", proverb)]))
    (fun _ => Redirect "/?error=Failed to load proverb").

(** [GET /add-proverb] *)
Definition get_add_proverb : handler :=
  fun f =>
    (Render "add-proverb"
       [("error", VNull);
        ("formData", VObj [("textDari", VStr EmptyString); ("textPashto", VStr EmptyString);
                           ("translationEn", VStr EmptyString); ("meaning", VStr EmptyString);
                           ("category", VStr "wisdom")])], f).

(** [!req.body.textDari || !req.body.textPashto || !req.body.translationEn
    || !req.body.category] *)
Definition missing_required (body : obj) : bool :=
  negb (ToBoolean (obj_get body "textDari"))
  || negb (ToBoolean (obj_get body "textPashto"))
  || negb (ToBoolean (obj_get body "translationEn"))
  || negb (ToBoolean (obj_get body "category")).

(** [proverbs.length > 0 ? Math.max(...proverbs.map(p => p.id)) + 1 : 1] on
    the ids already read off the records. *)
Definition next_id (ids : list value) : number :=
  match map ToNumber ids with
  | [] => Int 1
  | first :: rest => num_succ (Math_max first rest)
  end.

Definition newProverb (id : number) (body : obj) : value :=
  VObj [("id", VNum id);
        ("textDari", obj_get body "textDari");
        ("textPashto", obj_get body "textPashto");
        ("translationEn", obj_get body "translationEn");
        ("meaning", js_or (obj_get body "meaning") (VStr EmptyString));
        ("category", obj_get body "category")].

(** [POST /add-proverb].  On a store that is not an array every path
    through the body throws a [TypeError] before anything is written
    ([.map] or [.push] is not a function), which [as_array] renders. *)
Definition post_add_proverb (body : obj) : handler :=
  try_respond
    (if missing_required body
     then ret (Render "add-proverb"
                 [("error", VStr "Please fill in all required fields");
                  ("formData", VObj body)])
     else
       proverbs <- readProverbs ;;
       l <- lift (as_array proverbs) ;;
       ids <- lift (map_result (fun p => Get p "id") l) ;;
       writeProverbs (VArr (l ++ [newProverb (next_id ids) body])) ;;;
       ret (Redirect "/?success=Proverb added successfully"))
    (fun _ => Render "add-proverb"
                [("error", VStr "Failed to add proverb");
                 ("formData", VObj body)]).

(** [GET /edit-proverb/:id] *)
Definition get_edit_proverb (id : string) : handler :=
  try_respond
    (proverbs <- readProverbs ;;
     l <- lift (as_array proverbs) ;;
     proverb <- lift (find (id_is id) l) ;;
     if negb (ToBoolean proverb)
     then ret (Redirect "/?error=Proverb not found")
     else ret (Render "edit-proverb" [("proverb", proverb)]))
    (fun _ => Redirect "/?error=Failed to load proverb").

(** [{ ...proverb, textDari: req.body.textDari, ..., category:
    req.body.category }] *)
Definition edited (proverb : value) (body : obj) : value :=
  VObj (obj_sets (spread proverb)
          [("textDari", obj_get body "textDari");
           ("textPashto", obj_get body "textPashto");
           ("translationEn", obj_get body "translationEn");
           ("meaning", obj_get body "meaning");
           ("category", obj_get body "category")]).

(** [POST /edit-proverb/:id] *)
Definition post_edit_proverb (id : string) (body : obj) : handler :=
  try_respond
    (proverbs <- readProverbs ;;
     l <- lift (as_array proverbs) ;;
     index <- lift (findIndex (id_is id) l) ;;
     if index =? -1
     then ret (Redirect "/?error=Proverb not found")
     else
       let i := Z.to_nat index in
       writeProverbs (VArr (update_nth i (edited (nth i l VUndef) body) l)) ;;;
       ret (Redirect ("/proverb/" ++ id ++ "?success=Proverb updated successfully")))
    (fun _ => Render "edit-proverb"
                [("proverb", VObj (obj_set body "id" (VStr id)));
                 ("error", VStr "Failed to update proverb")]).

(** [POST /delete-proverb/:id] *)
Definition post_delete_proverb (id : string) : handler :=
  try_respond
    (proverbs <- readProverbs ;;
     l <- lift (as_array proverbs) ;;
     filteredProverbs <- lift (filter (id_is_not id) l) ;;
     if (List.length l =? List.length filteredProverbs)%nat
     then ret (Redirect ("/proverb/" ++ id ++ "?error=Proverb not found"))
     else
       writeProverbs (VArr filteredProverbs) ;;;
       ret (Redirect "/?success=Proverb deleted successfully"))
    (fun _ => Redirect ("/proverb/" ++ id ++ "?error=Failed to delete proverb")).

(* ================================================================== *)
(** ** Initialize with sample data if empty *)

Definition proverb_record (id : Z) (textDari textPashto translationEn meaning category : string)
  : value :=
  VObj [("id", VNum (Int id)); ("textDari", VStr textDari);
        ("textPashto", VStr textPashto); ("translationEn", VStr translationEn);
        ("meaning", VStr meaning); ("category", VStr category)].

Definition sampleProverbs : list value :=
  [ proverb_record 1
      "با یک دست دو هندوانه نتوان گرفت"
      "په یوه الس دو هندوانې نه شي نیول کېدای"
      "You can't hold two watermelons in one hand"
      "Don't take on more tasks than you can handle"
      "wisdom";
    proverb_record 2
      "دوست از دوست بی نیاز"
      "ملګری له ملګري بې پروا"
      "A friend is never in need of a friend"
      "True friends support each other"
      "friendship";
    proverb_record 3
      "هر که بامش بیش، برفش بیشتر"
      "چا چې د ګرځې لوړوالی زیات وي، د برف کچه یې هم زیاتوي"
      "The higher the roof, the more snow it collects"
      "Greater positions come with greater responsibilities"
      "life";
    proverb_record 4
      "سگ زرد برادر شغال است"
      "ژېړ سپی د ګېډۍ ورور دی"
      "A yellow dog is a brother to the jackal"
      "People of similar character stick together"
      "wisdom";
    proverb_record 5
      "آب که از سر گذشت، چه یک وجب چه صد وجب"
      "چې اوبه له سر تیریږي، نو یو څوکه یا سل څوکه څه توپیر لري"
      "When water has passed over your head, what difference does it make if it's one span or a hundred?"
      "Once you're in deep trouble, the extent doesn't matter"
      "life" ].

Definition initializeData : M unit :=
  proverbs <- readProverbs ;;
  len <- lift (Get proverbs "length") ;;
  if strict_eq_num len (Int 0)
  then writeProverbs (VArr sampleProverbs)
  else ret tt.

(* ================================================================== *)
(** ** The data model: what the store holds *)

(** The value read back from the text of [v]: an [undefined] or [NaN]
    array element comes back as [null], an [undefined] property is gone. *)
Fixpoint json_norm (v : value) : value :=
  match v with
  | VUndef => VNull
  | VNum NaN => VNull
  | VArr l => VArr (map json_norm l)
  | VObj o =>
      VObj (flat_map (fun kv =>
              match kv with
              | (k, VUndef) => []
              | (k, x) => [(k, json_norm x)]
              end) o)
  | _ => v
  end.

Fixpoint nodupb (l : list string) : bool :=
  match l with
  | [] => true
  | k :: l' => negb (existsb (String.eqb k) l') && nodupb l'
  end.

Definition in_range (z : Z) : bool := Z.abs z <=? two53.

(** A value of the modelled fragment: the keys of an object are distinct
    and the integers have magnitude at most 2^53. *)
Fixpoint wf (v : value) : bool :=
  match v with
  | VNum (Int z) => in_range z
  | VArr l => forallb wf l
  | VObj o =>
      nodupb (map fst o) && forallb (fun kv => let '(_, x) := kv in wf x) o
  | _ => true
  end.

(** A value that the file stores as it is: well formed, without
    [undefined] and without [NaN]. *)
Fixpoint storable (v : value) : bool :=
  match v with
  | VUndef => false
  | VNum NaN => false
  | VNum (Int z) => in_range z
  | VArr l => forallb storable l
  | VObj o =>
      nodupb (map fst o)
      && forallb (fun kv => let '(_, x) := kv in storable x) o
  | _ => true
  end.

(** A record as the handlers build it: an object with distinct keys whose
    fields are storable values or [undefined]. *)
Definition field_ok (v : value) : bool := is_undefined v || storable v.

Definition record_ok (v : value) : bool :=
  match v with
  | VObj o => nodupb (map fst o) && forallb (fun kv => field_ok (snd kv)) o
  | _ => false
  end.

(** Field-for-field equality of two values read as records. *)
Definition same_fields (a b : value) : Prop :=
  is_object a = true /\ is_object b = true
  /\ forall k, Get a k = Get b k.

(** The collection the store holds, as [readProverbs] returns it. *)
Definition stored (f : file) : result value := fst (readProverbs f).

(** The [id] of a record of the collection. *)
Definition id_of (p : value) : value := obj_get (spread p) "id".

Definition ids_of (l : list value) : list value := map id_of l.

(** Every element is an object whose [id] is an integer below [bound]. *)
Definition int_id_below (bound : Z) (p : value) : bool :=
  match p with
  | VObj o =>
      match obj_get o "id" with
      | VNum (Int z) => z <? bound
      | _ => false
      end
  | _ => false
  end.

Definition required_fields : list string :=
  ["textDari"; "textPashto"; "translationEn"; "category"].

Definition form_fields : list string :=
  ["textDari"; "textPashto"; "translationEn"; "meaning"; "category"].

(** A form field that is empty or missing. *)
Definition empty_or_missing (body : obj) (k : string) : Prop :=
  obj_get body k = VUndef \/ obj_get body k = VStr EmptyString.

(** No record of [l] carries the requested id: the callback
    [p => p.id === parseInt(req.params.id)] answers [false] on each. *)
Definition absent (id : string) (l : list value) : Prop :=
  Forall (fun p => id_is id p = Ok false) l.

(** [p] is the first record of [l1 ++ p :: l2] that carries the requested
    id. *)
Definition first_match (id : string) (l1 : list value) (p : value) : Prop :=
  absent id l1 /\ id_is id p = Ok true.

(** The file after [writeProverbs v]. *)
Definition written (v : value) : file := Some (ser 0 v).

(** The integer ids of a collection, in order. *)
Definition int_ids (l : list value) : list Z :=
  flat_map (fun p => match id_of p with
                     | VNum (Int z) => [z]
                     | _ => []
                     end) l.

(** The id the specification assigns to a new record: the maximum of the
    existing ids plus 1, or 1 when there is none. *)
Definition expected_id (l : list value) : Z :=
  match int_ids l with
  | [] => 1
  | z :: zs => fold_left Z.max zs z + 1
  end.

(** A request body that passes the validation of the creation form. *)
Definition valid_body (body : obj) : Prop :=
  missing_required body = false /\ record_ok (VObj body) = true.

(** The [i]-th sample record, and a submitted edit form without a
    [meaning] field and with an empty [textPashto]. *)
Definition sample (i : nat) : value := nth i sampleProverbs VUndef.

Definition sample_form : obj :=
  [("textDari", VStr "dari"); ("textPashto", VStr EmptyString);
   ("translationEn", VStr "english"); ("category", VStr "life")].

(** A creation form with every field filled in, and a collection whose
    only record carries the id 2^53. *)
Definition sample_body : obj :=
  [("textDari", VStr "dari"); ("textPashto", VStr "pashto");
   ("translationEn", VStr "english"); ("meaning", VStr "meaning");
   ("category", VStr "life")].


(** Number of parser calls that reading the text of [v] back takes. *)
Fixpoint cost (v : value) : nat :=
  match v with
  | VArr l => S (list_sum (map (fun x => S (cost x)) l))
  | VObj o =>
      S (list_sum (map (fun kv =>
                          match kv with
                          | (_, VUndef) => O
                          | (_, x) => S (cost x)
                          end) o))
  | _ => 1%nat
  end.

(** [n] successive submissions of the creation form. *)
Fixpoint creates (bodies : list obj) (f : file) : file :=
  match bodies with
  | [] => f
  | b :: rest => creates rest (snd (post_add_proverb b f))
  end.

(* ================================================================== *)
(** ** Notions used to describe the routes *)

(** An element on which [p.id] can be read: any value but [null] and
    [undefined]. *)
Definition readable (p : value) : bool :=
  match p with
  | VUndef | VNull => false
  | _ => true
  end.

(** [p.id !== parseInt(req.params.id)] on a readable element. *)
Definition keeps (id : string) (p : value) : bool :=
  negb (strict_eq_num (id_of p) (parseInt id)).


(** The ids [1, 2, ..., n]. *)
Definition count_up (n : nat) : list Z := map Z.of_nat (seq 1 n).

(** The not-found redirect of Delete. *)
Definition delete_not_found (id : string) : response :=
  Redirect ("/proverb/" ++ id ++ "?error=Proverb not found").

(* ================================================================== *)
(** ** Notions used in the proofs about the JSON text *)

Definition is_some {A} (o : option A) : bool :=
  match o with Some _ => true | None => false end.

(** A character that can begin a numeral. *)
Definition num_start (c : ascii) : bool :=
  (c =? "-")%char || is_some (digit_cons c).

(** A character that begins the text of a value. *)
Definition value_start (c : ascii) : bool :=
  (c =? "n")%char || (c =? "t")%char || (c =? "f")%char || (c =? dquote)%char
  || (c =? "[")%char || (c =? "{")%char || num_start c.

(** A text before which a numeral ends. *)
Definition number_end (s : string) : bool :=
  match s with
  | EmptyString => true
  | String c _ => negb (is_some (digit_cons c)) && negb (frac_or_exp s)
  end.

(** The properties that are written to the file. *)
Definition defined (o : obj) : obj :=
  List.filter (fun kv => negb (is_undefined (snd kv))) o.

Definition member_text (d : nat) (kv : string * value) : string :=
  QuoteJSONString (fst kv) ++ ": " ++ ser (S d) (snd kv).

Definition norm_member (kv : string * value) : string * value :=
  (fst kv, json_norm (snd kv)).

Definition separator (d : nat) : string :=
  String "," (String nl (indent (S d))).

(** The text between the brackets of a non-empty array or object. *)
Definition body_text (d : nat) (items : list string) (cl : ascii) (tail : string)
  : string :=
  String nl (indent (S d) ++ join (separator d) items
             ++ String nl (indent d ++ String cl tail)).

(** Reading the text of [v] gives [json_norm v], at any depth, before any
    text that ends a numeral, with enough fuel. *)
Definition roundtrips (v : value) : Prop :=
  forall d fuel rest,
    (cost v <= fuel)%nat -> number_end rest = true ->
    parse_value fuel (ser d v ++ rest) = Some (json_norm v, rest).

(* ================================================================== *)
(** * Properties *)

(** ** Induction on values *)

Section ValueInd.
Variable P : value -> Prop.
Hypothesis Hundef : P VUndef.
Hypothesis Hnull : P VNull.
Hypothesis Hbool : forall b, P (VBool b).
Hypothesis Hnum : forall n, P (VNum n).
Hypothesis Hstr : forall s, P (VStr s).
Hypothesis Harr : forall l, Forall P l -> P (VArr l).
Hypothesis Hobj : forall o, Forall (fun kv => P (snd kv)) o -> P (VObj o).

Fixpoint value_ind (v : value) : P v :=
  match v with
  | VUndef => Hundef
  | VNull => Hnull
  | VBool b => Hbool b
  | VNum n => Hnum n
  | VStr s => Hstr s
  | VArr l =>
      Harr l ((fix go (l : list value) : Forall P l :=
                 match l with
                 | [] => Forall_nil _
                 | x :: l' => Forall_cons x (value_ind x) (go l')
                 end) l)
  | VObj o =>
      Hobj o ((fix go (o : obj) : Forall (fun kv => P (snd kv)) o :=
                 match o with
                 | [] => Forall_nil _
                 | kv :: o' =>
                     Forall_cons kv (value_ind (snd kv)) (go o')
                 end) o)
  end.
End ValueInd.

(** ** Strings *)

Lemma append_assoc (a b c : string) : (a ++ b) ++ c = a ++ (b ++ c).
Proof. induction a as [|x a IH]; simpl; [reflexivity | now rewrite IH]. Qed.

Lemma append_nil_r (a : string) : a ++ EmptyString = a.
Proof. induction a as [|x a IH]; simpl; [reflexivity | now rewrite IH]. Qed.

Lemma length_append (a b : string) :
  String.length (a ++ b) = (String.length a + String.length b)%nat.
Proof. induction a as [|x a IH]; simpl; [reflexivity | now rewrite IH]. Qed.

Lemma skip_ws_spaces n s : skip_ws (spaces n ++ s) = skip_ws s.
Proof. induction n as [|n IH]; simpl; [reflexivity | exact IH]. Qed.

Lemma skip_ws_nl_indent d s : skip_ws (String nl (indent d ++ s)) = skip_ws s.
Proof. unfold indent. simpl. apply skip_ws_spaces. Qed.

(** ** String literals read back *)

Lemma byte_of_Z_byte c : byte_of_Z (byte c) = c.
Proof.
  unfold byte_of_Z, byte. rewrite Nat2Z.id. apply ascii_nat_embedding.
Qed.

Lemma byte_eq c n : byte c = n -> c = byte_of_Z n.
Proof. intros <-. symmetry. apply byte_of_Z_byte. Qed.

Lemma byte_nonneg c : 0 <= byte c.
Proof. unfold byte. lia. Qed.

Lemma parse_chars_plain c t :
  (c =? dquote)%char = false -> (c =? backslash)%char = false ->
  (byte c <? 32) = false ->
  parse_chars (String c t) = prepend (str1 c) (parse_chars t).
Proof.
  intros H1 H2 H3. cbn [parse_chars]. now rewrite H1, H2, H3.
Qed.

Lemma parse_chars_simple e x t :
  simple_escape e = Some x ->
  parse_chars (String backslash (String e t)) = prepend (str1 x) (parse_chars t).
Proof.
  intros H. cbn [parse_chars].
  change ((backslash =? dquote)%char) with false.
  change ((backslash =? backslash)%char) with true.
  cbv iota. now rewrite H.
Qed.

Lemma pair_with_low hi lo : hi < 55296 -> pair_with hi lo = None.
Proof.
  intros H. unfold pair_with. destruct lo as [l|]; [|reflexivity].
  replace (55296 <=? hi) with false by (symmetry; apply Z.leb_gt; exact H).
  reflexivity.
Qed.

Lemma parse_chars_u h1 h2 h3 h4 hi t :
  hex4 h1 h2 h3 h4 = Some hi -> hi < 55296 ->
  parse_chars (String backslash (String "u" (String h1 (String h2
                 (String h3 (String h4 t))))))
  = prepend (utf8_encode hi) (parse_chars t).
Proof.
  intros Hh Hlt. cbn [parse_chars].
  change ((backslash =? dquote)%char) with false.
  change ((backslash =? backslash)%char) with true.
  change (simple_escape "u") with (@None ascii).
  change (("u" =? "u")%char) with true.
  cbv iota. rewrite Hh.
  destruct t as [|b [|u [|g1 [|g2 [|g3 [|g4 r]]]]]]; try reflexivity.
  destruct ((b =? backslash)%char && (u =? "u")%char); [|reflexivity].
  now rewrite pair_with_low.
Qed.

Lemma hex4_small n :
  0 <= n < 32 ->
  hex4 "0" "0" (hex_digit (n / 16)) (hex_digit (n mod 16)) = Some n.
Proof.
  intros [Hlo Hhi].
  destruct n as [|p|p]; try lia; [reflexivity|].
  do 5 (try destruct p as [p|p|]); try lia; reflexivity.
Qed.

Lemma parse_chars_escape_step c t :
  parse_chars (escape c ++ t) = prepend (str1 c) (parse_chars t).
Proof.
  unfold escape.
  destruct (c =? dquote)%char eqn:Eq.
  { apply Ascii.eqb_eq in Eq. subst c. now apply parse_chars_simple. }
  destruct (c =? backslash)%char eqn:Eb.
  { apply Ascii.eqb_eq in Eb. subst c. now apply parse_chars_simple. }
  destruct (byte c =? 8) eqn:E8.
  { apply Z.eqb_eq, byte_eq in E8. subst c. now apply (parse_chars_simple "b"). }
  destruct (byte c =? 9) eqn:E9.
  { apply Z.eqb_eq, byte_eq in E9. subst c. now apply (parse_chars_simple "t"). }
  destruct (byte c =? 10) eqn:E10.
  { apply Z.eqb_eq, byte_eq in E10. subst c. now apply (parse_chars_simple "n"). }
  destruct (byte c =? 12) eqn:E12.
  { apply Z.eqb_eq, byte_eq in E12. subst c. now apply (parse_chars_simple "f"). }
  destruct (byte c =? 13) eqn:E13.
  { apply Z.eqb_eq, byte_eq in E13. subst c. now apply (parse_chars_simple "r"). }
  destruct (byte c <? 32) eqn:E32.
  - apply Z.ltb_lt in E32. pose proof (byte_nonneg c) as Hc.
    cbn [append str1].
    rewrite (parse_chars_u _ _ _ _ (byte c)); [| now apply hex4_small | lia].
    unfold utf8_encode.
    replace (byte c <? 128) with true by (symmetry; apply Z.ltb_lt; lia).
    now rewrite byte_of_Z_byte.
  - cbn [append str1]. now apply parse_chars_plain.
Qed.

Lemma parse_chars_escape c t str rest :
  parse_chars t = Some (str, rest) ->
  parse_chars (escape c ++ t) = Some (String c str, rest).
Proof.
  intros H. rewrite parse_chars_escape_step, H. reflexivity.
Qed.

Lemma parse_chars_quote s rest :
  parse_chars (quote_chars s ++ String dquote rest) = Some (s, rest).
Proof.
  induction s as [|c s IH]; simpl.
  - reflexivity.
  - rewrite append_assoc. now apply parse_chars_escape.
Qed.

(** ** Numerals read back *)

Lemma digit_cons_cases c f :
  digit_cons c = Some f ->
  In c ["0"; "1"; "2"; "3"; "4"; "5"; "6"; "7"; "8"; "9"]%char.
Proof.
  unfold digit_cons.
  repeat match goal with
  | |- context [(c =? ?x)%char] =>
      destruct (Ascii.eqb_spec c x) as [->|_]; [simpl; tauto|]
  end.
  discriminate.
Qed.

Lemma take_digits_uint u rest :
  number_end rest = true ->
  take_digits (NilEmpty.string_of_uint u ++ rest) = (u, rest).
Proof.
  intros Hend.
  induction u; simpl; try (rewrite IHu; reflexivity).
  destruct rest as [|c r]; [reflexivity|].
  simpl in Hend. simpl.
  destruct (digit_cons c); [discriminate | reflexivity].
Qed.

Lemma valid_int_unorm u : valid_int (unorm u) = true.
Proof.
  unfold unorm. pose proof (nzhead_nonzero u) as H.
  destruct (nzhead u) as [|w|w|w|w|w|w|w|w|w|w]; try reflexivity.
  exfalso. now apply (H w).
Qed.

Lemma valid_int_to_uint n : valid_int (N.to_uint n) = true.
Proof.
  rewrite <- (DecimalN.Unsigned.of_to n) at 1.
  rewrite DecimalN.Unsigned.to_of. apply valid_int_unorm.
Qed.

Lemma uint_head_not_minus u r c :
  NilEmpty.string_of_uint u = String c r -> (c =? "-")%char = false.
Proof. destruct u; simpl; intros [= <- _]; reflexivity. Qed.

Lemma string_of_uint_nonempty n :
  exists c r, NilEmpty.string_of_uint (N.to_uint n) = String c r
              /\ is_some (digit_cons c) = true.
Proof.
  pose proof (valid_int_to_uint n) as H.
  destruct (N.to_uint n); simpl in *; try discriminate; eauto.
Qed.

Lemma parse_digits n rest :
  number_end rest = true -> Z.of_N n <= two53 ->
  parse_number (NilEmpty.string_of_uint (N.to_uint n) ++ rest)
  = Some (Int (Z.of_N n), rest).
Proof.
  intros Hend Hle. unfold parse_number.
  destruct (string_of_uint_nonempty n) as (c & r & E & _).
  pose proof (uint_head_not_minus _ _ _ E) as Hm.
  pose proof (take_digits_uint (N.to_uint n) rest Hend) as Ht.
  rewrite E in *. cbn [append] in *. rewrite Hm, Ht.
  rewrite valid_int_to_uint, DecimalN.Unsigned.of_to.
  assert (Hf : frac_or_exp rest = false).
  { destruct rest as [|x y]; [reflexivity|]. simpl in Hend.
    apply andb_prop in Hend. destruct Hend as [_ Hend].
    now apply negb_true_iff in Hend. }
  rewrite Hf. simpl.
  now replace (Z.of_N n <=? two53) with true by (symmetry; apply Z.leb_le; lia).
Qed.

Lemma parse_number_Z z rest :
  in_range z = true -> number_end rest = true ->
  parse_number (string_of_Z z ++ rest) = Some (Int z, rest).
Proof.
  unfold in_range, string_of_Z. intros Hr Hend. apply Z.leb_le in Hr.
  destruct (z <? 0) eqn:Hneg.
  - apply Z.ltb_lt in Hneg. unfold parse_number. cbn [append].
    change (("-" =? "-")%char) with true. cbv iota.
    rewrite (take_digits_uint _ _ Hend), valid_int_to_uint.
    rewrite DecimalN.Unsigned.of_to.
    assert (Hf : frac_or_exp rest = false).
    { destruct rest as [|x y]; [reflexivity|]. simpl in Hend.
      apply andb_prop in Hend. destruct Hend as [_ Hend].
      now apply negb_true_iff in Hend. }
    rewrite Hf. simpl. rewrite Z2N.id by lia.
    replace (- z <=? two53) with true by (symmetry; apply Z.leb_le; lia).
    now rewrite Z.opp_involutive.
  - apply Z.ltb_ge in Hneg.
    rewrite parse_digits; [| assumption | rewrite Z2N.id; lia].
    now rewrite Z2N.id.
Qed.

Lemma string_of_Z_head z :
  exists c r, string_of_Z z = String c r /\ num_start c = true.
Proof.
  unfold string_of_Z. destruct (z <? 0).
  - eexists _, _. split; reflexivity.
  - destruct (string_of_uint_nonempty (Z.to_N z)) as (c & r & E & Hd).
    exists c, r. split; [exact E|]. unfold num_start. rewrite Hd.
    apply orb_true_r.
Qed.

Lemma parse_value_number fuel c r :
  num_start c = true ->
  parse_value (S fuel) (String c r)
  = match parse_number (String c r) with
    | Some (n, r') => Some (VNum n, r')
    | None => None
    end.
Proof.
  unfold num_start. intros H. apply orb_prop in H. destruct H as [H|H].
  - apply Ascii.eqb_eq in H. subst c. reflexivity.
  - destruct (digit_cons c) as [f|] eqn:E; [|discriminate].
    apply digit_cons_cases in E. simpl in E.
    repeat (destruct E as [<-|E]; [reflexivity|]). contradiction.
Qed.

(** ** Where the text of a value begins *)

Lemma value_start_props c :
  value_start c = true ->
  json_ws c = false /\ (c =? "]")%char = false /\ (c =? "}")%char = false.
Proof.
  destruct c as [[] [] [] [] [] [] [] []]; vm_compute;
    intros H; try discriminate H; repeat split.
Qed.

Lemma wrap_head op cl d items :
  exists r, wrap op cl d items = String op r.
Proof. destruct items; simpl; eauto. Qed.

Lemma ser_head d v :
  exists c r, ser d v = String c r /\ value_start c = true.
Proof.
  destruct v as [| |b|n|s|l|o]; cbn [ser].
  - eexists _, _; split; reflexivity.
  - eexists _, _; split; reflexivity.
  - destruct b; eexists _, _; split; reflexivity.
  - destruct n as [|z].
    + eexists _, _; split; reflexivity.
    + destruct (string_of_Z_head z) as (c & r & E & H).
      exists c, r. split; [exact E|]. unfold value_start. rewrite H.
      now rewrite !orb_true_r.
  - eexists _, _; split; reflexivity.
  - destruct (wrap_head "[" "]" d (map (ser (S d)) l)) as [r ->].
    eexists _, _; split; reflexivity.
  - match goal with |- context [wrap ?a ?b ?c ?i] =>
      destruct (wrap_head a b c i) as [r ->] end.
    eexists _, _; split; reflexivity.
Qed.

Lemma skip_ws_ser d v rest :
  exists c r, skip_ws (ser d v ++ rest) = String c r
              /\ (c =? "]")%char = false /\ (c =? "}")%char = false.
Proof.
  destruct (ser_head d v) as (c & r & E & H).
  apply value_start_props in H. destruct H as (Hw & H1 & H2).
  exists c, (r ++ rest). rewrite E. cbn [append skip_ws]. rewrite Hw. auto.
Qed.

(** ** Unfolding the parser *)

Lemma parse_value_skip fuel s s' :
  skip_ws s = skip_ws s' -> parse_value fuel s = parse_value fuel s'.
Proof.
  intros H. destruct fuel; [reflexivity|]. cbn [parse_value]. now rewrite H.
Qed.

Lemma parse_value_indented fuel d s :
  parse_value fuel (String nl (indent d ++ s)) = parse_value fuel s.
Proof. apply parse_value_skip, skip_ws_nl_indent. Qed.

Lemma parse_value_string fuel r :
  parse_value (S fuel) (String dquote r)
  = match parse_chars r with
    | Some (str, r') => Some (VStr str, r')
    | None => None
    end.
Proof. reflexivity. Qed.

Lemma parse_value_array fuel r :
  parse_value (S fuel) (String "[" r)
  = match skip_ws r with
    | String c' r' =>
        if (c' =? "]")%char then Some (VArr [], r')
        else match parse_elements fuel r with
             | Some (vs, r'') => Some (VArr vs, r'')
             | None => None
             end
    | EmptyString => None
    end.
Proof. reflexivity. Qed.

Lemma parse_value_object fuel r :
  parse_value (S fuel) (String "{" r)
  = match skip_ws r with
    | String c' r' =>
        if (c' =? "}")%char then Some (VObj [], r')
        else match parse_members fuel r with
             | Some (ms, r'') => Some (build_object ms, r'')
             | None => None
             end
    | EmptyString => None
    end.
Proof. reflexivity. Qed.

Lemma parse_elements_step fuel s :
  parse_elements (S fuel) s
  = match parse_value fuel s with
    | None => None
    | Some (v, r) =>
        match skip_ws r with
        | EmptyString => None
        | String c r' =>
            if (c =? ",")%char then
              match parse_elements fuel r' with
              | Some (vs, r'') => Some (v :: vs, r'')
              | None => None
              end
            else if (c =? "]")%char then Some ([v], r')
            else None
        end
    end.
Proof. reflexivity. Qed.

Lemma parse_members_step fuel k s :
  parse_members (S fuel)
    (String dquote (quote_chars k ++ String dquote (String ":" (String " " s))))
  = match parse_value fuel s with
    | None => None
    | Some (v, r3) =>
        match skip_ws r3 with
        | EmptyString => None
        | String c r4 =>
            if (c =? ",")%char then
              match parse_members fuel r4 with
              | Some (ms, r5) => Some ((k, v) :: ms, r5)
              | None => None
              end
            else if (c =? "}")%char then Some ([(k, v)], r4)
            else None
        end
    end.
Proof.
  cbn [parse_members skip_ws].
  change (json_ws dquote) with false. change ((dquote =? dquote)%char) with true.
  cbv iota. rewrite parse_chars_quote. cbn [skip_ws].
  change (json_ws ":") with false. change ((":" =? ":")%char) with true.
  cbv iota.
  now rewrite (parse_value_skip fuel (String " " s) s) by reflexivity.
Qed.

Lemma parse_members_skip fuel s s' :
  skip_ws s = skip_ws s' -> parse_members fuel s = parse_members fuel s'.
Proof.
  intros H. destruct fuel; [reflexivity|]. cbn [parse_members]. now rewrite H.
Qed.

(** ** The text between brackets *)

Lemma wrap_app op cl d items rest :
  items <> [] ->
  wrap op cl d items ++ rest = String op (body_text d items cl rest).
Proof.
  intros H. destruct items as [|x items]; [contradiction|].
  unfold wrap, body_text, separator. cbn [append].
  rewrite !append_assoc. cbn [append].
  rewrite !append_assoc. reflexivity.
Qed.

Lemma body_text_one d a cl tail :
  body_text d [a] cl tail
  = String nl (indent (S d) ++ a ++ String nl (indent d ++ String cl tail)).
Proof. reflexivity. Qed.

Lemma body_text_cons d a b items cl tail :
  body_text d (a :: b :: items) cl tail
  = String nl (indent (S d) ++ a ++ String "," (body_text d (b :: items) cl tail)).
Proof.
  unfold body_text, separator. cbn [join].
  rewrite !append_assoc. reflexivity.
Qed.

Lemma skip_ws_close d cl tail :
  json_ws cl = false ->
  skip_ws (String nl (indent d ++ String cl tail)) = String cl tail.
Proof.
  intros H. rewrite skip_ws_nl_indent. cbn [skip_ws]. now rewrite H.
Qed.

(** ** Objects as property lists *)

Lemma nodupb_NoDup l : nodupb l = true <-> NoDup l.
Proof.
  induction l as [|k l IH]; simpl.
  - split; [constructor | reflexivity].
  - rewrite andb_true_iff, negb_true_iff, IH. split.
    + intros [Hk Hl]. constructor; [|assumption].
      intros Hin. apply not_true_iff_false in Hk. apply Hk.
      apply existsb_exists. exists k. split; [assumption|apply String.eqb_refl].
    + intros H. inversion H as [|? ? Hk Hl]; subst. split; [|assumption].
      apply not_true_iff_false. intros Hex. apply existsb_exists in Hex.
      destruct Hex as (x & Hin & Hx). apply String.eqb_eq in Hx. now subst.
Qed.

Lemma obj_set_fresh o k v :
  ~ In k (map fst o) -> obj_set o k v = (o ++ [(k, v)])%list.
Proof.
  induction o as [|[k' v'] o IH]; simpl; intros H; [reflexivity|].
  destruct (String.eqb_spec k' k) as [->|Hne]; [tauto|].
  rewrite IH; tauto.
Qed.

Lemma obj_sets_fresh m : forall acc,
  NoDup (map fst acc ++ map fst m)%list -> obj_sets acc m = (acc ++ m)%list.
Proof.
  unfold obj_sets.
  induction m as [|[k v] m IH]; intros acc H; simpl.
  - now rewrite app_nil_r.
  - simpl in H. rewrite obj_set_fresh.
    + rewrite IH; [now rewrite <- app_assoc|].
      rewrite map_app. simpl. rewrite <- app_assoc. exact H.
    + apply NoDup_remove_2 in H. intros Hin. apply H.
      apply in_or_app. now left.
Qed.

Lemma build_object_nodup m :
  NoDup (map fst m) -> build_object m = VObj m.
Proof.
  intros H. unfold build_object. now rewrite obj_sets_fresh.
Qed.

Lemma defined_keys_NoDup o :
  NoDup (map fst o) -> NoDup (map fst (defined o)).
Proof.
  induction o as [|[k v] o IH]; simpl; intros H; [constructor|].
  inversion H as [|? ? Hk Hl]; subst.
  destruct (negb (is_undefined v)); simpl; auto.
  constructor; auto.
  intros Hin. apply Hk. clear -Hin.
  induction o as [|[k' v'] o IH]; simpl in *; [assumption|].
  destruct (negb (is_undefined v')); simpl in *; tauto.
Qed.

Lemma norm_member_keys m : map fst (map norm_member m) = map fst m.
Proof. induction m as [|[k v] m IH]; simpl; [reflexivity | now rewrite IH]. Qed.

Lemma flat_map_defined d o :
  flat_map (fun kv =>
              match kv with
              | (k, VUndef) => []
              | (k, x) => [QuoteJSONString k ++ ": " ++ ser (S d) x]
              end) o
  = map (member_text d) (defined o).
Proof.
  induction o as [|[k v] o IH]; [reflexivity|].
  cbn [flat_map defined List.filter]. rewrite IH.
  destruct v; reflexivity.
Qed.

Lemma json_norm_obj o :
  json_norm (VObj o) = VObj (map norm_member (defined o)).
Proof.
  cbn [json_norm]. f_equal.
  induction o as [|[k v] o IH]; [reflexivity|].
  cbn [flat_map defined List.filter]. rewrite IH.
  destruct v; reflexivity.
Qed.

Lemma cost_members o :
  list_sum (map (fun kv : string * value =>
                   match kv with
                   | (_, VUndef) => O
                   | (_, x) => S (cost x)
                   end) o)
  = list_sum (map (fun kv => S (cost (snd kv))) (defined o)).
Proof.
  induction o as [|[k v] o IH]; [reflexivity|].
  unfold list_sum in *.
  destruct v;
    cbn [map fold_right defined List.filter snd is_undefined negb];
    rewrite IH; reflexivity.
Qed.

Lemma cost_obj o :
  cost (VObj o) = S (list_sum (map (fun kv => S (cost (snd kv))) (defined o))).
Proof. rewrite <- cost_members. reflexivity. Qed.

Lemma defined_Forall (P : value -> Prop) o :
  Forall (fun kv => P (snd kv)) o -> Forall (fun kv => P (snd kv)) (defined o).
Proof.
  intros H. unfold defined. apply Forall_forall. intros kv Hin.
  apply filter_In in Hin. rewrite Forall_forall in H. now apply H.
Qed.

(** ** Arrays and objects read back *)

Lemma list_sum_cons a l : list_sum (a :: l) = (a + list_sum l)%nat.
Proof. reflexivity. Qed.

Ltac fuel_lia :=
  repeat match goal with
  | H : context [list_sum (_ :: _)] |- _ => rewrite list_sum_cons in H
  | |- context [list_sum (_ :: _)] => rewrite list_sum_cons
  | H : context [list_sum []] |- _ => change (list_sum []) with O in H
  end;
  lia.

Lemma parse_elements_ser d l :
  Forall roundtrips l -> l <> [] ->
  forall fuel tail,
    (list_sum (map (fun x => S (cost x)) l) <= fuel)%nat ->
    parse_elements fuel (body_text d (map (ser (S d)) l) "]" tail)
    = Some (map json_norm l, tail).
Proof.
  induction 1 as [|x l Hx Hl IH]; [contradiction|].
  intros _ fuel tail Hf. cbn [map] in Hf.
  destruct fuel as [|fuel]; [fuel_lia|].
  rewrite parse_elements_step.
  destruct l as [|y l'].
  - cbn [map]. rewrite body_text_one, parse_value_indented.
    rewrite Hx; [| fuel_lia | reflexivity].
    rewrite skip_ws_close by reflexivity. reflexivity.
  - cbn [map]. rewrite body_text_cons, parse_value_indented.
    rewrite Hx; [| fuel_lia | reflexivity].
    cbn [skip_ws]. change (json_ws ",") with false.
    change (("," =? ",")%char) with true. cbv iota.
    change (ser (S d) y :: map (ser (S d)) l') with (map (ser (S d)) (y :: l')).
    rewrite IH; [reflexivity | discriminate | cbn [map] in *; fuel_lia].
Qed.

Lemma member_text_app d k x s :
  member_text d (k, x) ++ s
  = String dquote (quote_chars k
      ++ String dquote (String ":" (String " " (ser (S d) x ++ s)))).
Proof.
  unfold member_text, QuoteJSONString. cbn [fst snd append].
  rewrite !append_assoc. cbn [append str1]. reflexivity.
Qed.

Lemma parse_members_ser d m :
  Forall (fun kv => roundtrips (snd kv)) m -> m <> [] ->
  forall fuel tail,
    (list_sum (map (fun kv => S (cost (snd kv))) m) <= fuel)%nat ->
    parse_members fuel (body_text d (map (member_text d) m) "}" tail)
    = Some (map norm_member m, tail).
Proof.
  induction 1 as [|[k x] m Hx Hm IH]; [contradiction|].
  intros _ fuel tail Hf. cbn [map snd] in Hf. cbn [snd] in Hx.
  destruct fuel as [|fuel]; [fuel_lia|].
  destruct m as [|kv m'].
  - cbn [map]. rewrite body_text_one.
    rewrite (parse_members_skip _ _ _ (skip_ws_nl_indent _ _)).
    rewrite member_text_app, parse_members_step.
    rewrite Hx; [| fuel_lia | reflexivity].
    rewrite skip_ws_close by reflexivity. reflexivity.
  - cbn [map]. rewrite body_text_cons.
    rewrite (parse_members_skip _ _ _ (skip_ws_nl_indent _ _)).
    rewrite member_text_app, parse_members_step.
    rewrite Hx; [| fuel_lia | reflexivity].
    cbn [skip_ws]. change (json_ws ",") with false.
    change (("," =? ",")%char) with true. cbv iota.
    change (member_text d kv :: map (member_text d) m')
      with (map (member_text d) (kv :: m')).
    rewrite IH; [reflexivity | discriminate | cbn [map] in *; fuel_lia].
Qed.

(** ** [JSON.parse] after [JSON.stringify] *)

Lemma wf_arr l : wf (VArr l) = true -> Forall (fun x => wf x = true) l.
Proof.
  cbn [wf]. intros H. apply Forall_forall. intros x Hin.
  rewrite forallb_forall in H. now apply H.
Qed.

Lemma wf_obj o :
  wf (VObj o) = true ->
  NoDup (map fst o) /\ Forall (fun kv => wf (snd kv) = true) o.
Proof.
  cbn [wf]. intros H. apply andb_prop in H. destruct H as [Hk Hv].
  split; [now apply nodupb_NoDup|].
  apply Forall_forall. intros [k x] Hin.
  rewrite forallb_forall in Hv. exact (Hv _ Hin).
Qed.

Theorem ser_parse v : wf v = true -> roundtrips v.
Proof.
  induction v as [| |b|n|s|l IH|o IH] using value_ind;
    intros Hwf d fuel rest Hfuel Hend;
    (destruct fuel as [|fuel]; [cbn [cost] in Hfuel; lia|]).
  - reflexivity.
  - reflexivity.
  - destruct b; reflexivity.
  - destruct n as [|z]; [reflexivity|].
    cbn [ser json_norm].
    destruct (string_of_Z_head z) as (c & r & E & Hs).
    pose proof (parse_number_Z z rest Hwf Hend) as Hn.
    rewrite E in *. cbn [append] in *.
    now rewrite parse_value_number, Hn.
  - cbn [ser json_norm]. unfold QuoteJSONString. cbn [append].
    rewrite append_assoc. cbn [append str1].
    now rewrite parse_value_string, parse_chars_quote.
  - cbn [ser json_norm]. destruct l as [|x l].
    + reflexivity.
    + assert (Hrt : Forall roundtrips (x :: l)).
      { apply wf_arr in Hwf. rewrite Forall_forall in *. auto. }
      rewrite wrap_app by discriminate.
      rewrite parse_value_array.
      unfold body_text at 1. rewrite skip_ws_nl_indent.
      cbn [map join]. cbn [map] in Hrt.
      destruct (skip_ws_ser (S d) x
                  (match map (ser (S d)) l with
                   | [] => EmptyString
                   | _ => separator d ++ join (separator d) (map (ser (S d)) l)
                   end ++ String nl (indent d ++ String "]" rest)))
        as (c & r & E & Hc & _).
      assert (E' : skip_ws (join (separator d) (ser (S d) x :: map (ser (S d)) l)
                           ++ String nl (indent d ++ String "]" rest))
                   = String c r).
      { rewrite <- E. cbn [join]. destruct (map (ser (S d)) l);
          [reflexivity | now rewrite !append_assoc]. }
      cbn [join] in E'. cbn [join]. rewrite E', Hc.
      change (ser (S d) x :: map (ser (S d)) l) with (map (ser (S d)) (x :: l)).
      rewrite parse_elements_ser; [reflexivity | assumption | discriminate |].
      cbn [cost] in Hfuel. lia.
  - rewrite json_norm_obj. cbn [ser]. rewrite flat_map_defined.
    rewrite cost_obj in Hfuel.
    apply wf_obj in Hwf. destruct Hwf as [Hnd Hwf].
    assert (Hrt : Forall (fun kv => roundtrips (snd kv)) (defined o)).
    { apply defined_Forall. rewrite Forall_forall in *. auto. }
    assert (Hkeys : NoDup (map fst (map norm_member (defined o)))).
    { rewrite norm_member_keys. now apply defined_keys_NoDup. }
    destruct (defined o) as [|[k x] m] eqn:Em.
    + reflexivity.
    + rewrite wrap_app by discriminate.
      rewrite parse_value_object.
      unfold body_text at 1. rewrite skip_ws_nl_indent.
      assert (E' : exists r,
                 skip_ws (join (separator d) (map (member_text d) ((k, x) :: m))
                          ++ String nl (indent d ++ String "}" rest))
                 = String dquote r).
      { cbn [map join]. destruct (map (member_text d) m);
          [| rewrite append_assoc]; rewrite member_text_app;
          eexists; reflexivity. }
      destruct E' as [r E']. rewrite E'.
      change ((dquote =? "}")%char) with false. cbv iota.
      rewrite parse_members_ser; [| assumption | discriminate | lia].
      now rewrite build_object_nodup.
Qed.

(** ** The length of the text bounds the fuel *)

Lemma list_sum_le {A} (f g : A -> nat) l :
  Forall (fun x => (f x <= g x)%nat) l ->
  (list_sum (map f l) <= list_sum (map g l))%nat.
Proof.
  induction 1 as [|x l Hx Hl IH]; [apply le_n|].
  cbn [map]. rewrite !list_sum_cons. lia.
Qed.

Lemma length_join sep items :
  (1 <= String.length sep)%nat ->
  (list_sum (map (fun s => S (String.length s)) items)
   <= S (String.length (join sep items)))%nat.
Proof.
  intros Hsep. induction items as [|x items IH]; [cbn; lia|].
  destruct items as [|y items].
  - cbn. lia.
  - cbn [map join] in *. rewrite list_sum_cons, !length_append. lia.
Qed.

Lemma length_wrap op cl d items :
  items <> [] ->
  (String.length (join (separator d) items) + 4
   <= String.length (wrap op cl d items))%nat.
Proof.
  intros H. destruct items as [|x items]; [contradiction|].
  unfold wrap, str1. fold (separator d). cbn [String.length].
  rewrite !length_append. cbn [String.length]. rewrite length_append.
  cbn [String.length]. lia.
Qed.

Lemma length_string_of_Z z : (1 <= String.length (string_of_Z z))%nat.
Proof.
  destruct (string_of_Z_head z) as (c & r & E & _). rewrite E. cbn. lia.
Qed.

Lemma cost_le_length v : forall d, (cost v <= String.length (ser d v))%nat.
Proof.
  induction v as [| |b|n|s|l IH|o IH] using value_ind; intros d.
  - cbn. lia.
  - cbn. lia.
  - destruct b; cbn; lia.
  - destruct n; [cbn; lia | apply length_string_of_Z].
  - cbn. lia.
  - cbn [ser cost]. destruct l as [|x l]; [cbn; lia|].
    pose proof (length_wrap "[" "]" d (map (ser (S d)) (x :: l))) as Hw.
    pose proof (length_join (separator d) (map (ser (S d)) (x :: l))) as Hj.
    rewrite map_map in Hj.
    assert (Hs : (list_sum (map (fun y => S (cost y)) (x :: l))
                  <= list_sum (map (fun y => S (String.length (ser (S d) y))) (x :: l)))%nat).
    { apply list_sum_le. rewrite Forall_forall in *. intros y Hy.
      specialize (IH y Hy (S d)). lia. }
    specialize (Hw ltac:(discriminate)). specialize (Hj ltac:(cbn; lia)). lia.
  - rewrite cost_obj. cbn [ser]. rewrite flat_map_defined.
    apply (defined_Forall (fun x => forall d, (cost x <= String.length (ser d x))%nat)) in IH.
    destruct (defined o) as [|kv m]; [cbn; lia|].
    pose proof (length_wrap "{" "}" d (map (member_text d) (kv :: m))) as Hw.
    pose proof (length_join (separator d) (map (member_text d) (kv :: m))) as Hj.
    rewrite map_map in Hj.
    assert (Hs : (list_sum (map (fun y => S (cost (snd y))) (kv :: m))
                  <= list_sum (map (fun y => S (String.length (member_text d y))) (kv :: m)))%nat).
    { apply list_sum_le. rewrite Forall_forall in *. intros y Hy.
      specialize (IH y Hy (S d)). unfold member_text.
      rewrite !length_append. lia. }
    specialize (Hw ltac:(discriminate)). specialize (Hj ltac:(cbn; lia)). lia.
Qed.

(** [JSON.parse(JSON.stringify(v, null, 2))] *)
Theorem JSON_parse_stringify v text :
  wf v = true -> JSON_stringify v = Some text ->
  JSON_parse text = Some (json_norm v).
Proof.
  intros Hwf Hs.
  assert (text = ser 0 v) as -> by (destruct v; inversion Hs; reflexivity).
  unfold JSON_parse.
  pose proof (ser_parse v Hwf 0%nat (S (String.length (ser 0 v))) EmptyString) as H.
  rewrite append_nil_r in H. rewrite H; [reflexivity | | reflexivity].
  pose proof (cost_le_length v 0). lia.
Qed.

(** ** Stored values *)

Lemma storable_obj o :
  storable (VObj o) = true <->
  NoDup (map fst o) /\ Forall (fun kv => storable (snd kv) = true) o.
Proof.
  cbn [storable]. rewrite andb_true_iff, nodupb_NoDup, forallb_forall, Forall_forall.
  split; intros [Hk Hv]; (split; [assumption|]); intros [k x] Hin;
    exact (Hv _ Hin).
Qed.

Lemma storable_arr l :
  storable (VArr l) = true <-> Forall (fun x => storable x = true) l.
Proof. cbn [storable]. now rewrite forallb_forall, Forall_forall. Qed.

Lemma defined_storable o :
  Forall (fun kv => storable (snd kv) = true) o -> defined o = o.
Proof.
  induction 1 as [|[k x] o Hx Ho IH]; [reflexivity|].
  cbn [defined List.filter snd] in *. fold (defined o). rewrite IH.
  destruct x; try reflexivity; discriminate.
Qed.

Lemma storable_spec v :
  storable v = true -> json_norm v = v /\ wf v = true.
Proof.
  induction v as [| |b|n|s|l IH|o IH] using value_ind; intros H;
    try (split; reflexivity); try discriminate.
  - destruct n; [discriminate | split; [reflexivity | exact H]].
  - apply storable_arr in H. cbn [json_norm wf]. split.
    + f_equal. rewrite <- (map_id l) at 2. apply map_ext_in.
      intros x Hx. rewrite Forall_forall in *. now apply IH; auto.
    + apply forallb_forall. intros x Hx. rewrite Forall_forall in *.
      now apply IH; auto.
  - apply storable_obj in H. destruct H as [Hk Hv]. split.
    + rewrite json_norm_obj, (defined_storable _ Hv). f_equal.
      rewrite <- (map_id o) at 2. apply map_ext_in.
      intros [k x] Hx. unfold norm_member. cbn [fst snd]. f_equal.
      rewrite Forall_forall in *.
      now apply (IH _ Hx), (Hv _ Hx).
    + cbn [wf]. apply andb_true_iff. split; [now apply nodupb_NoDup|].
      apply forallb_forall. intros [k x] Hx. rewrite Forall_forall in *.
      now apply (IH _ Hx), (Hv _ Hx).
Qed.

Lemma storable_norm v : storable v = true -> json_norm v = v.
Proof. intros H. now apply storable_spec. Qed.

Lemma storable_wf v : storable v = true -> wf v = true.
Proof. intros H. now apply storable_spec. Qed.

(** ** What [JSON.parse] returns is storable *)

Lemma obj_set_keys_in o k v x :
  In x (map fst (obj_set o k v)) -> x = k \/ In x (map fst o).
Proof.
  induction o as [|[k' v'] o IH]; simpl.
  - intros [<-|[]]. now left.
  - destruct (String.eqb k' k); simpl; intros [<-|H]; auto.
    destruct (IH H); auto.
Qed.

Lemma obj_set_NoDup o k v :
  NoDup (map fst o) -> NoDup (map fst (obj_set o k v)).
Proof.
  induction o as [|[k' v'] o IH]; simpl; intros H.
  - constructor; [intros [] | constructor].
  - inversion H as [|? ? Hk Ho]; subst.
    destruct (String.eqb_spec k' k) as [->|Hne]; simpl.
    + now constructor.
    + constructor; [|now apply IH].
      intros Hin. apply obj_set_keys_in in Hin. destruct Hin; congruence.
Qed.

Lemma obj_set_Forall (P : value -> Prop) o k v :
  Forall (fun kv => P (snd kv)) o -> P v ->
  Forall (fun kv => P (snd kv)) (obj_set o k v).
Proof.
  induction 1 as [|[k' v'] o Hx Ho IH]; simpl; intros Hv.
  - now repeat constructor.
  - destruct (String.eqb k' k); constructor; auto.
Qed.

Lemma obj_sets_ok (P : value -> Prop) m : forall acc,
  NoDup (map fst acc) -> Forall (fun kv => P (snd kv)) acc ->
  Forall (fun kv => P (snd kv)) m ->
  NoDup (map fst (obj_sets acc m))
  /\ Forall (fun kv => P (snd kv)) (obj_sets acc m).
Proof.
  unfold obj_sets. induction m as [|[k v] m IH]; intros acc Hk Hv Hm; simpl.
  - now split.
  - inversion Hm; subst. apply IH; auto.
    + now apply obj_set_NoDup.
    + now apply obj_set_Forall.
Qed.

Lemma build_object_storable ms :
  Forall (fun kv => storable (snd kv) = true) ms ->
  storable (build_object ms) = true.
Proof.
  intros H. unfold build_object. apply storable_obj.
  apply (obj_sets_ok (fun x => storable x = true)); auto; constructor.
Qed.

Lemma parse_number_storable s n r :
  parse_number s = Some (n, r) -> storable (VNum n) = true.
Proof.
  unfold parse_number.
  destruct (match s with
            | EmptyString => (false, s)
            | String c r0 => if (c =? "-")%char then (true, r0) else (false, s)
            end) as [neg s1].
  destruct (take_digits s1) as [u rest].
  destruct (valid_int u && negb (frac_or_exp rest)); [|discriminate].
  destruct (Z.of_N (N.of_uint u) <=? two53) eqn:Hle; [|discriminate].
  intros [= <- _]. apply Z.leb_le in Hle. cbn [storable]. unfold in_range.
  apply Z.leb_le. pose proof (N2Z.is_nonneg (N.of_uint u)).
  destruct neg; lia.
Qed.

Ltac parse_cases :=
  repeat match goal with
  | H : Some _ = Some _ |- _ => inversion H; subst; clear H
  | H : None = Some _ |- _ => discriminate H
  | H : match ?x with _ => _ end = Some _ |- _ =>
      let E := fresh "E" in destruct x eqn:E
  end.

Lemma parse_storable fuel :
  (forall s v r, parse_value fuel s = Some (v, r) -> storable v = true)
  /\ (forall s vs r, parse_elements fuel s = Some (vs, r) ->
                     Forall (fun x => storable x = true) vs)
  /\ (forall s ms r, parse_members fuel s = Some (ms, r) ->
                     Forall (fun kv => storable (snd kv) = true) ms).
Proof.
  induction fuel as [|fuel (IHv & IHe & IHm)].
  - repeat split; discriminate.
  - repeat split.
    + intros s v r H. cbn [parse_value] in H. parse_cases; try reflexivity.
      * apply storable_arr. eauto.
      * apply build_object_storable. eauto.
      * eapply parse_number_storable; eauto.
    + intros s vs r H. cbn [parse_elements] in H. parse_cases.
      * constructor; eauto.
      * constructor; [eauto | constructor].
    + intros s ms r H. cbn [parse_members] in H. parse_cases.
      * constructor; [cbn; eauto | eauto].
      * constructor; [cbn; eauto | constructor].
Qed.

Lemma JSON_parse_storable text v :
  JSON_parse text = Some v -> storable v = true.
Proof.
  unfold JSON_parse. intros H. parse_cases.
  eapply (proj1 (parse_storable _)); eauto.
Qed.

(** ** The store helpers *)

Lemma readProverbs_existing data :
  readProverbs (Some data)
  = (match JSON_parse data with
     | Some v => Ok v
     | None => Throw SyntaxError
     end, Some data).
Proof.
  unfold readProverbs, try_catch, bind, fs_readFile.
  destruct (JSON_parse data); reflexivity.
Qed.

Lemma readProverbs_absent : readProverbs None = (Ok (VArr []), Some "[]").
Proof. reflexivity. Qed.

Lemma readProverbs_keeps data f :
  f = Some data -> snd (readProverbs f) = f.
Proof. intros ->. now rewrite readProverbs_existing. Qed.

Lemma stored_bootstrap : stored (Some "[]") = Ok (VArr []).
Proof. reflexivity. Qed.

Lemma stored_read f v :
  stored f = Ok v ->
  readProverbs f = (Ok v, snd (readProverbs f))
  /\ storable v = true
  /\ stored (snd (readProverbs f)) = Ok v.
Proof.
  unfold stored. destruct f as [data|].
  - rewrite readProverbs_existing. cbn [fst snd].
    rewrite readProverbs_existing. cbn [fst].
    destruct (JSON_parse data) as [w|] eqn:E; [|discriminate].
    intros [= <-]. repeat split. now apply JSON_parse_storable in E.
  - rewrite readProverbs_absent. cbn [fst snd]. intros [= <-].
    repeat split.
Qed.

Lemma writeProverbs_array l f :
  writeProverbs (VArr l) f = (Ok tt, written (VArr l)).
Proof. reflexivity. Qed.

Lemma stored_written v :
  wf v = true -> is_undefined v = false ->
  stored (written v) = Ok (json_norm v).
Proof.
  intros Hwf Hd. unfold stored, written. rewrite readProverbs_existing.
  rewrite (JSON_parse_stringify v (ser 0 v) Hwf); [reflexivity|].
  destruct v; try reflexivity; discriminate.
Qed.

(** ** Looking a record up by id *)

Lemma id_is_not_spec id p b :
  id_is id p = Ok b -> id_is_not id p = Ok (negb b).
Proof.
  unfold id_is, id_is_not. destruct (Get p "id"); [|discriminate].
  now intros [= <-].
Qed.

Lemma find_absent id l : absent id l -> find (id_is id) l = Ok VUndef.
Proof.
  induction 1 as [|p l Hp Hl IH]; [reflexivity|].
  cbn [find]. now rewrite Hp.
Qed.

Lemma findIndex_from_absent id l : forall i,
  absent id l -> findIndex_from (id_is id) i l = Ok (-1).
Proof.
  induction l as [|p l IH]; intros i H; [reflexivity|].
  inversion H as [|? ? Hp Hl]; subst.
  cbn [findIndex_from]. rewrite Hp. now apply IH.
Qed.

Lemma filter_absent id l : absent id l -> filter (id_is_not id) l = Ok l.
Proof.
  induction 1 as [|p l Hp Hl IH]; [reflexivity|].
  cbn [filter]. now rewrite (id_is_not_spec _ _ _ Hp), IH.
Qed.

Lemma find_first id l1 p l2 :
  first_match id l1 p -> find (id_is id) (l1 ++ p :: l2) = Ok p.
Proof.
  intros [Ha Hp]. induction Ha as [|q l1 Hq Hl IH]; cbn [app find].
  - now rewrite Hp.
  - now rewrite Hq.
Qed.

Lemma findIndex_from_first id l1 p l2 : forall i,
  first_match id l1 p ->
  findIndex_from (id_is id) i (l1 ++ p :: l2)
  = Ok (i + Z.of_nat (List.length l1)).
Proof.
  intros i [Ha Hp]. revert i.
  induction Ha as [|q l1 Hq Hl IH]; intros i; cbn [app findIndex_from].
  - rewrite Hp. cbn. now rewrite Z.add_0_r.
  - rewrite Hq, IH. f_equal. cbn [List.length]. lia.
Qed.

Lemma filter_unique id l1 p l2 :
  absent id l1 -> id_is id p = Ok true -> absent id l2 ->
  filter (id_is_not id) (l1 ++ p :: l2) = Ok (l1 ++ l2)%list.
Proof.
  intros Ha Hp Hb. induction Ha as [|q l1 Hq Hl IH]; cbn [app filter].
  - now rewrite (id_is_not_spec _ _ _ Hp), (filter_absent _ _ Hb).
  - now rewrite (id_is_not_spec _ _ _ Hq), IH.
Qed.

Lemma update_nth_middle l1 p x l2 :
  update_nth (List.length l1) x (l1 ++ p :: l2) = (l1 ++ x :: l2)%list.
Proof. induction l1 as [|q l1 IH]; cbn; [reflexivity | now rewrite IH]. Qed.

Lemma nth_middle_value l1 (p : value) l2 d :
  nth (List.length l1) (l1 ++ p :: l2) d = p.
Proof. induction l1 as [|q l1 IH]; cbn; [reflexivity | exact IH]. Qed.

Lemma id_is_object id p :
  id_is id p = Ok true -> exists o, p = VObj o.
Proof.
  unfold id_is. destruct p; cbn; try discriminate; eauto.
Qed.

(** Two records with different ids are not both the requested one. *)
Lemma id_is_other id p q :
  id_is id p = Ok true -> is_object q = true -> id_of q <> id_of p ->
  id_is id q = Ok false.
Proof.
  intros Hp Hq Hne. destruct (id_is_object _ _ Hp) as [o ->].
  destruct q as [| | | | | |o']; try discriminate.
  unfold id_of in Hne. unfold id_is in *. cbn [Get spread] in *.
  injection Hp as Hp. f_equal.
  destruct (strict_eq_num (obj_get o' "id") (parseInt id)) eqn:E; [|reflexivity].
  exfalso. apply Hne.
  destruct (obj_get o "id") as [| | |[|x]| | |]; try discriminate.
  destruct (obj_get o' "id") as [| | |[|y]| | |]; try discriminate.
  cbn in Hp, E. destruct (parseInt id) as [|z]; try discriminate.
  apply Z.eqb_eq in Hp, E. congruence.
Qed.

(** ** The routes on a store that holds an array *)

Section Routes.
Variables (f f1 : file) (ps : list value).
Hypothesis Hread : readProverbs f = (Ok (VArr ps), f1).

Lemma get_proverb_run id :
  get_proverb id f
  = (match find (id_is id) ps with
     | Ok proverb =>
         if negb (ToBoolean proverb)
         then Redirect "/?error=Proverb not found"
         else Render "proverb-details" [("proverb", proverb)]
     | Throw _ => Redirect "/?error=Failed to load proverb"
     end, f1).
Proof.
  unfold get_proverb, try_respond, bind, lift. rewrite Hread.
  cbn [as_array]. destruct (find (id_is id) ps) as [pv|]; [|reflexivity].
  destruct (negb (ToBoolean pv)); reflexivity.
Qed.

Lemma post_edit_proverb_run id body :
  post_edit_proverb id body f
  = match findIndex (id_is id) ps with
    | Ok index =>
        if index =? -1
        then (Redirect "/?error=Proverb not found", f1)
        else
          (Redirect ("/proverb/" ++ id ++ "?success=Proverb updated successfully"),
           written (VArr (update_nth (Z.to_nat index)
                            (edited (nth (Z.to_nat index) ps VUndef) body) ps)))
    | Throw _ =>
        (Render "edit-proverb"
           [("proverb", VObj (obj_set body "id" (VStr id)));
            ("error", VStr "Failed to update proverb")], f1)
    end.
Proof.
  unfold post_edit_proverb, try_respond, bind, lift. rewrite Hread.
  cbn [as_array]. destruct (findIndex (id_is id) ps) as [i|]; [|reflexivity].
  destruct (i =? -1); reflexivity.
Qed.

Lemma post_delete_proverb_run id :
  post_delete_proverb id f
  = match filter (id_is_not id) ps with
    | Ok filteredProverbs =>
        if (List.length ps =? List.length filteredProverbs)%nat
        then (Redirect ("/proverb/" ++ id ++ "?error=Proverb not found"), f1)
        else (Redirect "/?success=Proverb deleted successfully",
              written (VArr filteredProverbs))
    | Throw _ =>
        (Redirect ("/proverb/" ++ id ++ "?error=Failed to delete proverb"), f1)
    end.
Proof.
  unfold post_delete_proverb, try_respond, bind, lift. rewrite Hread.
  cbn [as_array]. destruct (filter (id_is_not id) ps) as [fl|]; [|reflexivity].
  destruct (List.length ps =? List.length fl)%nat; reflexivity.
Qed.

Lemma post_add_proverb_run body :
  missing_required body = false ->
  post_add_proverb body f
  = match map_result (fun p => Get p "id") ps with
    | Ok ids =>
        (Redirect "/?success=Proverb added successfully",
         written (VArr (ps ++ [newProverb (next_id ids) body])))
    | Throw _ =>
        (Render "add-proverb"
           [("error", VStr "Failed to add proverb");
            ("formData", VObj body)], f1)
    end.
Proof.
  intros Hm. unfold post_add_proverb, try_respond, bind, lift.
  rewrite Hm, Hread. cbn [as_array].
  destruct (map_result (fun p => Get p "id") ps); reflexivity.
Qed.
End Routes.

(** ** Fields of a record *)

Lemma obj_get_missing o k : ~ In k (map fst o) -> obj_get o k = VUndef.
Proof.
  induction o as [|[k' v] o IH]; simpl; intros H; [reflexivity|].
  destruct (String.eqb_spec k' k) as [->|_]; [tauto|]. apply IH. tauto.
Qed.

Lemma obj_get_defined o k :
  NoDup (map fst o) -> obj_get (defined o) k = obj_get o k.
Proof.
  induction o as [|[k' v] o IH]; [reflexivity|].
  cbn [map fst]. intros H. inversion H as [|? ? Hk Ho]; subst.
  cbn [defined List.filter snd obj_get]. fold (defined o).
  destruct v; cbn [is_undefined negb obj_get]; rewrite ?(IH Ho); try reflexivity.
  destruct (String.eqb_spec k' k) as [->|_]; [|reflexivity].
  now apply obj_get_missing.
Qed.

Lemma record_ok_fields o :
  record_ok (VObj o) = true ->
  NoDup (map fst o) /\ Forall (fun kv => field_ok (snd kv) = true) o.
Proof.
  cbn [record_ok]. rewrite andb_true_iff, nodupb_NoDup, forallb_forall.
  now rewrite Forall_forall.
Qed.

Lemma fields_norm o :
  Forall (fun kv => field_ok (snd kv) = true) o ->
  map norm_member (defined o) = defined o.
Proof.
  induction 1 as [|[k v] o Hv Ho IH]; [reflexivity|].
  cbn [defined List.filter snd] in *. fold (defined o).
  unfold field_ok in Hv.
  destruct (is_undefined v) eqn:Eu; cbn [negb]; [exact IH|].
  cbn [map]. rewrite IH. unfold norm_member. cbn [fst snd].
  now rewrite storable_norm.
Qed.

Lemma record_ok_wf p : record_ok p = true -> wf p = true.
Proof.
  destruct p as [| | | | | |o]; try discriminate. intros H.
  apply record_ok_fields in H. destruct H as [Hk Hv].
  cbn [wf]. apply andb_true_iff. split; [now apply nodupb_NoDup|].
  apply forallb_forall. intros [k x] Hin. rewrite Forall_forall in Hv.
  specialize (Hv _ Hin). unfold field_ok in Hv. cbn [snd] in Hv.
  apply orb_prop in Hv. destruct Hv as [Hv|Hv].
  - now destruct x.
  - now apply storable_wf.
Qed.

Lemma record_ok_norm o :
  record_ok (VObj o) = true -> json_norm (VObj o) = VObj (defined o).
Proof.
  intros H. apply record_ok_fields in H. destruct H as [_ Hv].
  now rewrite json_norm_obj, fields_norm.
Qed.

Lemma record_ok_same_fields p :
  record_ok p = true -> same_fields p (json_norm p).
Proof.
  destruct p as [| | | | | |o]; try discriminate. intros H.
  rewrite (record_ok_norm _ H). apply record_ok_fields in H.
  repeat split. intros k. cbn [Get]. f_equal. symmetry.
  now apply obj_get_defined.
Qed.

(** ** The store and the routes *)

(** C1. For every sequence [x] of records, [writeProverbs x] followed by
    [readProverbs] returns a sequence of the same length whose records
    equal those of [x] field for field and in the same order; the sequence
    returned is [x] itself when no field of [x] is [undefined]. *)
Theorem write_then_read_round_trip (x : list value) (f : file) :
  Forall (fun p => record_ok p = true) x ->
  (writeProverbs (VArr x) ;;; readProverbs) f
  = (Ok (VArr (map json_norm x)), written (VArr x))
  /\ Forall2 same_fields x (map json_norm x)
  /\ (forallb storable x = true -> map json_norm x = x).
Proof.
  intros Hx. repeat split.
  - unfold bind. rewrite writeProverbs_array.
    assert (Hwf : wf (VArr x) = true).
    { cbn [wf]. apply forallb_forall. intros p Hp.
      rewrite Forall_forall in Hx. now apply record_ok_wf, Hx. }
    pose proof (stored_written (VArr x) Hwf eq_refl) as Hs.
    unfold stored, written in *. rewrite readProverbs_existing in *.
    cbn [fst] in Hs. destruct (JSON_parse (ser 0 (VArr x))); [|discriminate].
    now injection Hs as ->.
  - induction Hx as [|p x Hp Hx IH]; cbn [map]; constructor; auto.
    now apply record_ok_same_fields.
  - intros Hs. rewrite <- (map_id x) at 2. apply map_ext_in. intros p Hp.
    rewrite forallb_forall in Hs. now apply storable_norm, Hs.
Qed.

Lemma write_then_read_round_trip_witness :
  (writeProverbs (VArr sampleProverbs) ;;; readProverbs) None
  = (Ok (VArr sampleProverbs), written (VArr sampleProverbs)).
Proof.
  assert (H : Forall (fun p => record_ok p = true) sampleProverbs)
    by (repeat constructor).
  destruct (write_then_read_round_trip sampleProverbs None H) as (H1 & _ & H3).
  rewrite (H3 eq_refl) in H1. exact H1.
Defined.

(** C3. When no record of the stored collection carries the requested id,
    Get-by-id and Edit-submit redirect to the list with the notice
    "Proverb not found", Delete redirects to the detail view with the same
    notice, and none of them reaches [writeProverbs]: the file is left as
    [readProverbs] alone leaves it (an existing file untouched, an absent
    one created with the empty array) and holds the same collection as
    before. *)
Theorem not_found_leaves_store (f : file) (ps : list value) (id : string)
        (body : obj) :
  stored f = Ok (VArr ps) -> absent id ps ->
  get_proverb id f
  = (Redirect "/?error=Proverb not found", snd (readProverbs f))
  /\ post_edit_proverb id body f
     = (Redirect "/?error=Proverb not found", snd (readProverbs f))
  /\ post_delete_proverb id f
     = (Redirect ("/proverb/" ++ id ++ "?error=Proverb not found"),
        snd (readProverbs f))
  /\ stored (snd (readProverbs f)) = stored f
  /\ (forall data, f = Some data -> snd (readProverbs f) = f).
Proof.
  intros Hs Ha. destruct (stored_read _ _ Hs) as (Hr & _ & Hs').
  repeat split.
  - rewrite (get_proverb_run _ _ _ Hr). now rewrite (find_absent _ _ Ha).
  - rewrite (post_edit_proverb_run _ _ _ Hr). unfold findIndex.
    now rewrite (findIndex_from_absent _ _ _ Ha).
  - rewrite (post_delete_proverb_run _ _ _ Hr).
    rewrite (filter_absent _ _ Ha). now rewrite Nat.eqb_refl.
  - congruence.
  - intros data. apply readProverbs_keeps.
Qed.

Lemma not_found_leaves_store_witness :
  get_proverb "7" (written (VArr sampleProverbs))
  = (Redirect "/?error=Proverb not found", written (VArr sampleProverbs))
  /\ post_delete_proverb "7" (written (VArr sampleProverbs))
     = (Redirect "/proverb/7?error=Proverb not found",
        written (VArr sampleProverbs)).
Proof.
  assert (Hs : stored (written (VArr sampleProverbs)) = Ok (VArr sampleProverbs))
    by (vm_compute; reflexivity).
  assert (Ha : absent "7" sampleProverbs) by (repeat constructor).
  destruct (not_found_leaves_store _ _ "7" [] Hs Ha) as (H1 & _ & H3 & _ & H5).
  rewrite (H5 _ eq_refl) in H1, H3. split; assumption.
Defined.

(** C7. A create request in which [textDari], [textPashto],
    [translationEn] or [category] is empty or missing leaves the file as
    it is and re-renders the form with the request body itself as the form
    data. *)
Theorem post_add_proverb_missing_field (body : obj) (f : file) (k : string) :
  In k required_fields -> empty_or_missing body k ->
  post_add_proverb body f
  = (Render "add-proverb"
       [("error", VStr "Please fill in all required fields");
        ("formData", VObj body)], f).
Proof.
  intros Hk He.
  assert (Hm : missing_required body = true).
  { unfold missing_required. cbn in Hk.
    destruct Hk as [<-|[<-|[<-|[<-|[]]]]]; destruct He as [-> | ->];
      cbn; rewrite ?orb_true_r; reflexivity. }
  unfold post_add_proverb, try_respond. now rewrite Hm.
Qed.

Lemma post_add_proverb_missing_field_witness :
  post_add_proverb [("textDari", VStr "a"); ("textPashto", VStr EmptyString);
                    ("translationEn", VStr "c"); ("category", VStr "life")]
    None
  = (Render "add-proverb"
       [("error", VStr "Please fill in all required fields");
        ("formData", VObj [("textDari", VStr "a"); ("textPashto", VStr EmptyString);
                           ("translationEn", VStr "c");
                           ("category", VStr "life")])], None).
Proof.
  apply (post_add_proverb_missing_field _ None "textPashto").
  - cbn. tauto.
  - right. reflexivity.
Defined.



(** ** The sample data *)

Lemma stored_sampleProverbs :
  stored (written (VArr sampleProverbs)) = Ok (VArr sampleProverbs).
Proof.
  rewrite stored_written by reflexivity. now rewrite storable_norm.
Qed.

(** C9. Initialization with no backing file, or with a store that reads
    back as the empty array, leaves the store holding exactly the five
    sample records, whose ids are 1, 2, 3, 4, 5; initialization on a
    non-empty store leaves the file as it is. *)
Theorem initializeData_seeds_empty_store :
  initializeData None = (Ok tt, written (VArr sampleProverbs))
  /\ stored (written (VArr sampleProverbs)) = Ok (VArr sampleProverbs)
  /\ List.length sampleProverbs = 5%nat
  /\ ids_of sampleProverbs
     = [VNum (Int 1); VNum (Int 2); VNum (Int 3); VNum (Int 4); VNum (Int 5)]
  /\ (forall f, stored f = Ok (VArr []) ->
        initializeData f = (Ok tt, written (VArr sampleProverbs)))
  /\ (forall f p ps, stored f = Ok (VArr (p :: ps)) ->
        initializeData f = (Ok tt, f)).
Proof.
  pose proof stored_sampleProverbs as Hseed.
  repeat split; try assumption.
  - intros f Hs. destruct (stored_read _ _ Hs) as (Hr & _).
    unfold initializeData, bind, lift. rewrite Hr. reflexivity.
  - intros f p ps Hs. destruct (stored_read _ _ Hs) as (Hr & _).
    destruct f as [data|]; [|discriminate Hs].
    rewrite (readProverbs_keeps data _ eq_refl) in Hr.
    unfold initializeData, bind, lift. rewrite Hr.
    cbn [Get String.eqb Ascii.eqb Bool.eqb List.length strict_eq_num num_eqb].
    now destruct (Z.eqb_spec (Z.of_nat (S (List.length ps))) 0) as [E|_]; [lia|].
Qed.

Lemma initializeData_seeds_empty_store_witness :
  initializeData (Some "[]") = (Ok tt, written (VArr sampleProverbs))
  /\ initializeData (written (VArr sampleProverbs))
     = (Ok tt, written (VArr sampleProverbs)).
Proof.
  destruct initializeData_seeds_empty_store as (_ & Hs & _ & _ & He & Hn).
  split.
  - apply He. reflexivity.
  - exact (Hn _ _ _ Hs).
Defined.

(** ** Editing a record *)

Lemma obj_get_set_same o k v : obj_get (obj_set o k v) k = v.
Proof.
  induction o as [|[k' v'] o IH]; simpl.
  - now rewrite String.eqb_refl.
  - destruct (String.eqb k' k) eqn:E; simpl; rewrite E; auto.
Qed.

Lemma obj_get_set_other o k k' v :
  k' <> k -> obj_get (obj_set o k' v) k = obj_get o k.
Proof.
  intros Hne. induction o as [|[k0 v0] o IH]; simpl.
  - now destruct (String.eqb_spec k' k).
  - destruct (String.eqb_spec k0 k') as [->|H0]; simpl.
    + now destruct (String.eqb_spec k' k).
    + now rewrite IH.
Qed.

Lemma edited_form_field o body k :
  In k form_fields ->
  obj_get (spread (edited (VObj o) body)) k = obj_get body k.
Proof.
  intros Hk. cbn in Hk. unfold edited, obj_sets. cbn [spread fold_left fst snd].
  destruct Hk as [<-|[<-|[<-|[<-|[<-|[]]]]]];
    repeat (rewrite obj_get_set_other by discriminate);
    apply obj_get_set_same.
Qed.

Lemma edited_other_field o body k :
  ~ In k form_fields ->
  obj_get (spread (edited (VObj o) body)) k = obj_get o k.
Proof.
  intros Hk. cbn in Hk. unfold edited, obj_sets. cbn [spread fold_left fst snd].
  repeat (rewrite obj_get_set_other by (intros <-; tauto)). reflexivity.
Qed.

Lemma obj_get_field_ok body k :
  Forall (fun kv => field_ok (snd kv) = true) body ->
  field_ok (obj_get body k) = true.
Proof.
  induction 1 as [|[k' v] body Hv Hb IH]; simpl; [reflexivity|].
  now destruct (String.eqb k' k).
Qed.

Lemma storable_field_ok v : storable v = true -> field_ok v = true.
Proof. intros H. unfold field_ok. rewrite H. apply orb_true_r. Qed.

Lemma edited_record_ok o body :
  storable (VObj o) = true -> record_ok (VObj body) = true ->
  record_ok (edited (VObj o) body) = true.
Proof.
  intros Ho Hb. apply storable_obj in Ho. destruct Ho as [Hk Hv].
  apply record_ok_fields in Hb. destruct Hb as [_ Hb].
  unfold edited. cbn [spread record_ok].
  destruct (obj_sets_ok (fun x => field_ok x = true)
              [("textDari", obj_get body "textDari");
               ("textPashto", obj_get body "textPashto");
               ("translationEn", obj_get body "translationEn");
               ("meaning", obj_get body "meaning");
               ("category", obj_get body "category")] o Hk) as [H1 H2].
  - rewrite Forall_forall in *. intros kv Hin.
    now apply storable_field_ok, Hv.
  - repeat constructor; cbn [snd]; now apply obj_get_field_ok.
  - apply andb_true_iff. split; [now apply nodupb_NoDup|].
    apply forallb_forall. now rewrite Forall_forall in H2.
Qed.

Lemma storable_app l1 p l2 :
  storable (VArr (l1 ++ p :: l2)) = true ->
  Forall (fun x => storable x = true) l1 /\ storable p = true
  /\ Forall (fun x => storable x = true) l2.
Proof.
  intros H. apply storable_arr in H. apply Forall_app in H.
  destruct H as [H1 H2]. inversion H2; subst. auto.
Qed.

Lemma map_json_norm_storable l :
  Forall (fun x => storable x = true) l -> map json_norm l = l.
Proof.
  intros H. rewrite <- (map_id l) at 2. apply map_ext_in. intros x Hx.
  rewrite Forall_forall in H. now apply storable_norm, H.
Qed.

Lemma forallb_wf_storable l :
  Forall (fun x => storable x = true) l -> forallb wf l = true.
Proof.
  intros H. apply forallb_forall. intros x Hx.
  rewrite Forall_forall in H. now apply storable_wf, H.
Qed.

(** The store after a record [q], built by a handler, took the place of
    one record or was inserted between stored records. *)
Lemma stored_written_around l1 q l2 :
  Forall (fun x => storable x = true) l1 -> record_ok q = true ->
  Forall (fun x => storable x = true) l2 ->
  stored (written (VArr (l1 ++ q :: l2)))
  = Ok (VArr (l1 ++ json_norm q :: l2)).
Proof.
  intros H1 Hq H2. rewrite stored_written; [| |reflexivity].
  - cbn [json_norm]. rewrite map_app. cbn [map].
    now rewrite !map_json_norm_storable.
  - cbn [wf]. rewrite forallb_app. cbn [forallb].
    now rewrite !forallb_wf_storable, record_ok_wf.
Qed.

Lemma edit_found f l1 p l2 id body :
  stored f = Ok (VArr (l1 ++ p :: l2)) -> first_match id l1 p ->
  record_ok (VObj body) = true ->
  post_edit_proverb id body f
  = (Redirect ("/proverb/" ++ id ++ "?success=Proverb updated successfully"),
     written (VArr (l1 ++ edited p body :: l2)))
  /\ stored (written (VArr (l1 ++ edited p body :: l2)))
     = Ok (VArr (l1 ++ VObj (defined (spread (edited p body))) :: l2))
  /\ NoDup (map fst (spread (edited p body))).
Proof.
  intros Hs Hm Hb. destruct (stored_read _ _ Hs) as (Hr & Hst & _).
  apply storable_app in Hst. destruct Hst as (H1 & Hp & H2).
  destruct (id_is_object _ _ (proj2 Hm)) as [o ->].
  pose proof (edited_record_ok o body Hp Hb) as He.
  repeat split.
  - rewrite (post_edit_proverb_run _ _ _ Hr). unfold findIndex.
    rewrite (findIndex_from_first _ _ _ _ _ Hm). cbn [Z.add].
    destruct (Z.eqb_spec (Z.of_nat (List.length l1)) (-1)) as [E|_]; [lia|].
    now rewrite Nat2Z.id, nth_middle_value, update_nth_middle.
  - rewrite stored_written_around by assumption.
    unfold edited in *. now rewrite (record_ok_norm _ He).
  - unfold edited in *. cbn [spread]. now apply record_ok_fields in He.
Qed.

(** C4. An edit-submit whose id matches a stored record replaces that
    record's five form fields by the submitted values and writes the
    collection back: the record keeps its place, its id and every field
    that is not a form field, and all other records are unchanged. *)
Theorem post_edit_proverb_replaces_fields
        (f : file) (l1 : list value) (p : value) (l2 : list value)
        (id : string) (body : obj) :
  stored f = Ok (VArr (l1 ++ p :: l2)) -> first_match id l1 p ->
  record_ok (VObj body) = true ->
  exists o',
    fst (post_edit_proverb id body f)
    = Redirect ("/proverb/" ++ id ++ "?success=Proverb updated successfully")
    /\ stored (snd (post_edit_proverb id body f))
       = Ok (VArr (l1 ++ VObj o' :: l2))
    /\ (forall k, In k form_fields -> Get (VObj o') k = Ok (obj_get body k))
    /\ (forall k, ~ In k form_fields -> Get (VObj o') k = Get p k)
    /\ id_of (VObj o') = id_of p.
Proof.
  intros Hs Hm Hb. destruct (edit_found _ _ _ _ _ _ Hs Hm Hb) as (Hrun & Hst & Hk).
  destruct (id_is_object _ _ (proj2 Hm)) as [o ->].
  exists (defined (spread (edited (VObj o) body))).
  rewrite Hrun. cbn [fst snd]. split; [reflexivity|]. split; [exact Hst|].
  assert (Hother : forall k, ~ In k form_fields ->
            obj_get (defined (spread (edited (VObj o) body))) k = obj_get o k).
  { intros k Hin. rewrite obj_get_defined by assumption.
    now apply edited_other_field. }
  repeat split.
  - intros k Hin. cbn [Get]. f_equal. rewrite obj_get_defined by assumption.
    now apply edited_form_field.
  - intros k Hin. cbn [Get]. f_equal. now apply Hother.
  - unfold id_of. cbn [spread]. apply Hother. cbn.
    intros H. repeat (destruct H as [H|H]; [discriminate H|]). exact H.
Qed.

Lemma has_key_defined o k :
  obj_get o k = VUndef -> NoDup (map fst o) -> has_key (defined o) k = false.
Proof.
  unfold has_key. induction o as [|[k' v] o IH]; [reflexivity|].
  cbn [map fst obj_get]. intros Hg Hk. inversion Hk as [|? ? Hn Ho]; subst.
  cbn [defined List.filter snd]. fold (defined o).
  destruct (String.eqb_spec k' k) as [->|Hne].
  - subst v. cbn [is_undefined negb]. apply IH; [|assumption].
    now apply obj_get_missing.
  - destruct (negb (is_undefined v)); cbn [existsb fst]; rewrite ?IH; auto.
    now destruct (String.eqb_spec k' k).
Qed.

(** C10. Edit-submit validates nothing: on an existing id an empty form
    field is written as the empty string, a missing one leaves the field
    [undefined] in the record and absent from the stored text, and that
    holds for [meaning] too, which the record built on create would carry
    as the empty string. *)
Theorem post_edit_proverb_no_validation
        (f : file) (l1 : list value) (p : value) (l2 : list value)
        (id : string) (body : obj) :
  stored f = Ok (VArr (l1 ++ p :: l2)) -> first_match id l1 p ->
  record_ok (VObj body) = true ->
  exists o',
    fst (post_edit_proverb id body f)
    = Redirect ("/proverb/" ++ id ++ "?success=Proverb updated successfully")
    /\ stored (snd (post_edit_proverb id body f))
       = Ok (VArr (l1 ++ VObj o' :: l2))
    /\ (forall k, In k form_fields -> obj_get body k = VStr EmptyString ->
                  Get (VObj o') k = Ok (VStr EmptyString))
    /\ (forall k, In k form_fields -> obj_get body k = VUndef ->
                  Get (edited p body) k = Ok VUndef /\ has_key o' k = false)
    /\ (forall n, obj_get body "meaning" = VUndef ->
                  Get (newProverb n body) "meaning" = Ok (VStr EmptyString)).
Proof.
  intros Hs Hm Hb. destruct (edit_found _ _ _ _ _ _ Hs Hm Hb) as (Hrun & Hst & Hk).
  destruct (id_is_object _ _ (proj2 Hm)) as [o ->].
  exists (defined (spread (edited (VObj o) body))).
  rewrite Hrun. cbn [fst snd]. split; [reflexivity|].
  split; [exact Hst|]. repeat split.
  - intros k Hin He. cbn [Get]. f_equal. rewrite obj_get_defined by assumption.
    now rewrite edited_form_field.
  - match goal with Hu : obj_get body ?k = VUndef |- _ =>
      unfold edited; cbn [Get]; f_equal;
      now rewrite <- Hu, <- (edited_form_field o body k)
    end.
  - apply has_key_defined; [|assumption].
    now rewrite edited_form_field.
  - intros n He. cbn. now rewrite He.
Qed.

Lemma sample_first_match : first_match "2" [sample 0] (sample 1).
Proof. split; [repeat constructor | reflexivity]. Qed.

Lemma stored_samples :
  stored (written (VArr sampleProverbs))
  = Ok (VArr ([sample 0] ++ sample 1 :: [sample 2; sample 3; sample 4])).
Proof. exact stored_sampleProverbs. Qed.

Lemma post_edit_proverb_replaces_fields_witness :
  exists o',
    stored (snd (post_edit_proverb "2" sample_form (written (VArr sampleProverbs))))
    = Ok (VArr ([sample 0] ++ VObj o' :: [sample 2; sample 3; sample 4]))
    /\ Get (VObj o') "textDari" = Ok (VStr "dari")
    /\ id_of (VObj o') = VNum (Int 2).
Proof.
  destruct (post_edit_proverb_replaces_fields
              (written (VArr sampleProverbs)) [sample 0] (sample 1)
              [sample 2; sample 3; sample 4] "2" sample_form
              stored_samples sample_first_match eq_refl)
    as (o' & _ & Hs & Hf & _ & Hid).
  exists o'. repeat split; [exact Hs | | exact Hid].
  apply (Hf "textDari"). cbn. tauto.
Defined.

Lemma post_edit_proverb_no_validation_witness :
  exists o',
    stored (snd (post_edit_proverb "2" sample_form (written (VArr sampleProverbs))))
    = Ok (VArr ([sample 0] ++ VObj o' :: [sample 2; sample 3; sample 4]))
    /\ Get (VObj o') "textPashto" = Ok (VStr EmptyString)
    /\ has_key o' "meaning" = false.
Proof.
  destruct (post_edit_proverb_no_validation
              (written (VArr sampleProverbs)) [sample 0] (sample 1)
              [sample 2; sample 3; sample 4] "2" sample_form
              stored_samples sample_first_match eq_refl)
    as (o' & _ & Hs & He & Hm & _).
  exists o'. repeat split; [exact Hs | |].
  - apply He; [cbn; tauto | reflexivity].
  - apply (Hm "meaning"); [cbn; tauto | reflexivity].
Defined.

(** ** Deleting a record *)

Lemma absent_of_distinct id p l :
  id_is id p = Ok true -> Forall (fun q => is_object q = true) l ->
  ~ In (id_of p) (ids_of l) -> absent id l.
Proof.
  intros Hp Hl Hn. unfold absent. rewrite Forall_forall in *.
  intros q Hq. apply (id_is_other id p); auto.
  intros E. apply Hn. rewrite <- E. now apply in_map.
Qed.

Lemma delete_found f l1 p l2 id :
  stored f = Ok (VArr (l1 ++ p :: l2)) ->
  Forall (fun q => is_object q = true) (l1 ++ p :: l2) ->
  NoDup (ids_of (l1 ++ p :: l2)) ->
  id_is id p = Ok true ->
  post_delete_proverb id f
  = (Redirect "/?success=Proverb deleted successfully",
     written (VArr (l1 ++ l2)))
  /\ stored (written (VArr (l1 ++ l2))) = Ok (VArr (l1 ++ l2)).
Proof.
  intros Hs Ho Hnd Hp. destruct (stored_read _ _ Hs) as (Hr & Hst & _).
  apply storable_app in Hst. destruct Hst as (H1 & _ & H2).
  apply Forall_app in Ho. destruct Ho as [Ho1 Ho2]. inversion Ho2; subst.
  unfold ids_of in Hnd. rewrite map_app in Hnd. cbn [map] in Hnd.
  apply NoDup_remove_2 in Hnd.
  assert (Ha1 : absent id l1).
  { apply (absent_of_distinct id p); auto. intros Hin. apply Hnd.
    apply in_or_app. now left. }
  assert (Ha2 : absent id l2).
  { apply (absent_of_distinct id p); auto. intros Hin. apply Hnd.
    apply in_or_app. now right. }
  split.
  - rewrite (post_delete_proverb_run _ _ _ Hr).
    rewrite (filter_unique _ _ _ _ Ha1 Hp Ha2).
    rewrite !length_app. cbn [List.length].
    now destruct (Nat.eqb_spec (List.length l1 + S (List.length l2))
                               (List.length l1 + List.length l2)) as [E|_]; [lia|].
  - rewrite stored_written; [| |reflexivity].
    + cbn [json_norm]. rewrite map_app. now rewrite !map_json_norm_storable.
    + cbn [wf]. rewrite forallb_app. now rewrite !forallb_wf_storable.
Qed.

(** C6. On a collection of records with pairwise-distinct ids that holds a
    record with the requested id, Delete writes back the collection
    without that record, the others in their order; deleting id 2 from the
    ids 1, 2, 3 leaves 1, 3. *)
Theorem post_delete_proverb_removes_one
        (f : file) (l1 : list value) (p : value) (l2 : list value) (id : string) :
  stored f = Ok (VArr (l1 ++ p :: l2)) ->
  Forall (fun q => is_object q = true) (l1 ++ p :: l2) ->
  NoDup (ids_of (l1 ++ p :: l2)) ->
  id_is id p = Ok true ->
  post_delete_proverb id f
  = (Redirect "/?success=Proverb deleted successfully",
     written (VArr (l1 ++ l2)))
  /\ stored (snd (post_delete_proverb id f)) = Ok (VArr (l1 ++ l2)).
Proof.
  intros Hs Ho Hnd Hp.
  destruct (delete_found _ _ _ _ _ Hs Ho Hnd Hp) as [Hrun Hst].
  split; [exact Hrun|]. now rewrite Hrun.
Qed.

Lemma post_delete_proverb_removes_one_witness :
  post_delete_proverb "2" (written (VArr [sample 0; sample 1; sample 2]))
  = (Redirect "/?success=Proverb deleted successfully",
     written (VArr [sample 0; sample 2]))
  /\ ids_of [sample 0; sample 1; sample 2]
     = [VNum (Int 1); VNum (Int 2); VNum (Int 3)]
  /\ ids_of [sample 0; sample 2] = [VNum (Int 1); VNum (Int 3)].
Proof.
  assert (Hs : stored (written (VArr [sample 0; sample 1; sample 2]))
               = Ok (VArr ([sample 0] ++ sample 1 :: [sample 2])))
    by (vm_compute; reflexivity).
  assert (Ho : Forall (fun q => is_object q = true)
                 ([sample 0] ++ sample 1 :: [sample 2]))
    by (repeat constructor).
  assert (Hn : NoDup (ids_of ([sample 0] ++ sample 1 :: [sample 2]))).
  { change (NoDup [VNum (Int 1); VNum (Int 2); VNum (Int 3)]).
    repeat (constructor; [cbn; intuition discriminate|]). constructor. }
  destruct (post_delete_proverb_removes_one _ _ _ _ "2" Hs Ho Hn eq_refl)
    as [H _].
  split; [exact H | split; reflexivity].
Defined.

(** ** Creating a record *)

Lemma round53_in_range z : in_range z = true -> round53 z = z.
Proof.
  unfold in_range, round53. intros H. apply Z.leb_le in H.
  destruct (Z.ltb_spec (Z.abs z) two53) as [_|Hge]; [reflexivity|].
  assert (Hz : z = two53 \/ z = - two53) by lia.
  destruct Hz as [-> | ->]; vm_compute; reflexivity.
Qed.

Lemma int_id_below_spec b p :
  int_id_below b p = true ->
  exists o z, p = VObj o /\ obj_get o "id" = VNum (Int z) /\ z < b.
Proof.
  destruct p as [| | | | | |o]; try discriminate. cbn [int_id_below].
  destruct (obj_get o "id") as [| | |[|z]| | |] eqn:E; try discriminate.
  intros H. apply Z.ltb_lt in H. eauto.
Qed.

Lemma ids_of_ints b l :
  Forall (fun p => int_id_below b p = true) l ->
  ids_of l = map (fun z => VNum (Int z)) (int_ids l)
  /\ Forall (fun z => z < b) (int_ids l)
  /\ map_result (fun p => Get p "id") l = Ok (ids_of l)
  /\ List.length (int_ids l) = List.length l.
Proof.
  induction 1 as [|p l Hp Hl (IH1 & IH2 & IH3 & IH4)].
  - repeat split. constructor.
  - apply int_id_below_spec in Hp. destruct Hp as (o & z & -> & E & Hz).
    assert (Hid : id_of (VObj o) = VNum (Int z))
      by (unfold id_of; cbn [spread]; exact E).
    assert (Hi : int_ids (VObj o :: l) = z :: int_ids l)
      by (unfold int_ids; cbn [flat_map]; now rewrite Hid).
    assert (Ho : ids_of (VObj o :: l) = VNum (Int z) :: ids_of l)
      by (unfold ids_of; cbn [map]; now rewrite Hid).
    rewrite Hi, Ho. repeat split.
    + cbn [map]. now rewrite IH1.
    + now constructor.
    + cbn [map_result Get]. now rewrite E, IH3.
    + cbn [List.length]. now rewrite IH4.
Qed.

Lemma Math_max_ints zs : forall z,
  Math_max (Int z) (map Int zs) = Int (fold_left Z.max zs z).
Proof.
  unfold Math_max. induction zs as [|x zs IH]; intros z; [reflexivity|].
  cbn [map fold_left num_max]. apply IH.
Qed.

Lemma next_id_ints zs :
  next_id (map (fun z => VNum (Int z)) zs)
  = match zs with
    | [] => Int 1
    | z :: zs' => Int (round53 (fold_left Z.max zs' z + 1))
    end.
Proof.
  unfold next_id. rewrite map_map. cbn [ToNumber].
  destruct zs as [|z zs']; [reflexivity|].
  cbn [map]. now rewrite Math_max_ints.
Qed.

Lemma fold_max_bounds zs : forall z,
  z <= fold_left Z.max zs z
  /\ Forall (fun x => x <= fold_left Z.max zs z) zs
  /\ In (fold_left Z.max zs z) (z :: zs).
Proof.
  induction zs as [|x zs IH]; intros z; cbn [fold_left].
  - repeat split; [lia | constructor | now left].
  - destruct (IH (Z.max z x)) as (H1 & H2 & H3). repeat split.
    + lia.
    + constructor; [lia | exact H2].
    + destruct H3 as [H3|H3]; [|now right; right].
      rewrite <- H3. destruct (Z.max_spec z x) as [[_ ->]|[_ ->]];
        [right; now left | now left].
Qed.

Lemma obj_get_storable o k :
  Forall (fun kv => storable (snd kv) = true) o ->
  obj_get o k = VUndef \/ storable (obj_get o k) = true.
Proof.
  induction 1 as [|[k' v] o Hv Ho IH]; simpl; [now left|].
  destruct (String.eqb k' k); [now right | exact IH].
Qed.

Lemma int_ids_in_range l :
  Forall (fun x => storable x = true) l ->
  Forall (fun z => in_range z = true) (int_ids l).
Proof.
  induction 1 as [|p l Hp Hl IH]; [constructor|].
  unfold int_ids in *. cbn [flat_map]. apply Forall_app. split; [|exact IH].
  unfold id_of. destruct p as [| | | | | |o]; cbn [spread obj_get];
    try (now constructor).
  apply storable_obj in Hp. destruct Hp as [_ Hv].
  destruct (obj_get_storable o "id" Hv) as [-> | Hs]; [constructor|].
  destruct (obj_get o "id") as [| | |[|z]| | |]; constructor; auto.
Qed.


Lemma next_id_expected l :
  Forall (fun x => storable x = true) l ->
  Forall (fun p => int_id_below two53 p = true) l ->
  next_id (ids_of l) = Int (expected_id l)
  /\ in_range (expected_id l) = true.
Proof.
  intros Hs Hb. destruct (ids_of_ints _ _ Hb) as (E & Hlt & _).
  pose proof (int_ids_in_range _ Hs) as Hr.
  rewrite E, next_id_ints. unfold expected_id.
  destruct (int_ids l) as [|z zs]; [split; reflexivity|].
  destruct (fold_max_bounds zs z) as (_ & _ & Hin).
  rewrite Forall_forall in Hlt, Hr.
  specialize (Hlt _ Hin). specialize (Hr _ Hin).
  assert (Hin' : in_range (fold_left Z.max zs z + 1) = true).
  { unfold in_range in *. apply Z.leb_le in Hr. apply Z.leb_le. lia. }
  split; [|exact Hin']. now rewrite round53_in_range.
Qed.

Lemma truthy_storable v :
  field_ok v = true -> ToBoolean v = true -> storable v = true.
Proof.
  unfold field_ok. destruct v; cbn; try discriminate; auto.
Qed.

Lemma newProverb_storable e body :
  in_range e = true -> valid_body body ->
  storable (newProverb (Int e) body) = true.
Proof.
  intros He [Hm Hb]. apply record_ok_fields in Hb. destruct Hb as [_ Hb].
  unfold missing_required in Hm.
  repeat (apply orb_false_elim in Hm; destruct Hm as [Hm ?]).
  repeat match goal with
  | H : negb _ = false |- _ => apply negb_false_iff in H
  end.
  assert (Hf : forall k, ToBoolean (obj_get body k) = true ->
                         storable (obj_get body k) = true).
  { intros k Ht. apply truthy_storable; [now apply obj_get_field_ok | exact Ht]. }
  assert (Hmeaning : storable (js_or (obj_get body "meaning") (VStr EmptyString)) = true).
  { unfold js_or. destruct (ToBoolean (obj_get body "meaning")) eqn:Et;
      [now apply Hf | reflexivity]. }
  unfold newProverb. cbn [storable map fst nodupb existsb forallb].
  rewrite He, Hmeaning, !Hf by assumption. reflexivity.
Qed.

Lemma create_run f ps body :
  stored f = Ok (VArr ps) ->
  Forall (fun p => int_id_below two53 p = true) ps ->
  valid_body body ->
  post_add_proverb body f
  = (Redirect "/?success=Proverb added successfully",
     written (VArr (ps ++ [newProverb (Int (expected_id ps)) body])))
  /\ stored (written (VArr (ps ++ [newProverb (Int (expected_id ps)) body])))
     = Ok (VArr (ps ++ [newProverb (Int (expected_id ps)) body])).
Proof.
  intros Hs Hb Hv. destruct (stored_read _ _ Hs) as (Hr & Hst & _).
  apply storable_arr in Hst.
  destruct (ids_of_ints _ _ Hb) as (_ & _ & Hids & _).
  destruct (next_id_expected _ Hst Hb) as (Hn & He).
  pose proof (newProverb_storable _ _ He Hv) as Hnew.
  split.
  - rewrite (post_add_proverb_run _ _ _ Hr) by apply Hv.
    now rewrite Hids, Hn.
  - rewrite stored_written; [| |reflexivity].
    + cbn [json_norm]. rewrite map_app. cbn [map].
      now rewrite map_json_norm_storable, storable_norm.
    + cbn [wf]. rewrite forallb_app. cbn [forallb].
      now rewrite forallb_wf_storable, storable_wf.
Qed.





(** ** Ids stay distinct *)


Lemma int_id_below_mono b b' l :
  b <= b' ->
  Forall (fun p => int_id_below b p = true) l ->
  Forall (fun p => int_id_below b' p = true) l.
Proof.
  intros Hle. apply Forall_impl. intros p H.
  apply int_id_below_spec in H. destruct H as (o & z & -> & E & Hz).
  cbn [int_id_below]. rewrite E. apply Z.ltb_lt. lia.
Qed.









(* ================================================================== *)
(** * Further properties of the store and the routes *)

(** ** Reading twice *)

Lemma readProverbs_file f :
  snd (readProverbs f) = match f with Some data => Some data | None => Some "[]" end.
Proof.
  destruct f as [data|]; [now rewrite readProverbs_existing | reflexivity].
Qed.

Lemma readProverbs_again f :
  readProverbs (snd (readProverbs f))
  = (fst (readProverbs f), snd (readProverbs f)).
Proof.
  destruct f as [data|]; [|reflexivity].
  rewrite readProverbs_existing. cbn [fst snd].
  now rewrite readProverbs_existing.
Qed.

Lemma home_run f :
  home f
  = (match fst (readProverbs f) with
     | Ok proverbs => Render "home" [("proverbs", proverbs)]
     | Throw _ => Render "home" [("proverbs", VArr []);
                                 ("error", VStr "Failed to load proverbs")]
     end, snd (readProverbs f)).
Proof.
  unfold home, try_respond, bind, ret.
  destruct (readProverbs f) as [[v|e] f1]; reflexivity.
Qed.

(** X1. Listing is idempotent: a second [GET /] right after a first one
    gives the same response and leaves the file as the first one left it,
    whatever the file held. *)
Theorem home_twice (f : file) : home (snd (home f)) = home f.
Proof.
  rewrite !home_run. cbn [snd]. now rewrite readProverbs_again.
Qed.



(** ** Routes whose store is not an array *)

Lemma get_edit_proverb_run f f1 ps id :
  readProverbs f = (Ok (VArr ps), f1) ->
  get_edit_proverb id f
  = (match find (id_is id) ps with
     | Ok proverb =>
         if negb (ToBoolean proverb)
         then Redirect "/?error=Proverb not found"
         else Render "edit-proverb" [("proverb", proverb)]
     | Throw _ => Redirect "/?error=Failed to load proverb"
     end, f1).
Proof.
  intros Hread. unfold get_edit_proverb, try_respond, bind, lift.
  rewrite Hread. cbn [as_array].
  destruct (find (id_is id) ps) as [pv|]; [|reflexivity].
  destruct (negb (ToBoolean pv)); reflexivity.
Qed.




(** ** Routes that only read *)

(** X4. The three GET routes that read the store touch the file exactly
    as [readProverbs] does: an existing file keeps its text, an absent one
    is created with the text of the empty array; the creation form leaves
    the file alone. *)
Theorem get_routes_only_read (f : file) (id : string) :
  snd (home f) = snd (readProverbs f)
  /\ snd (get_proverb id f) = snd (readProverbs f)
  /\ snd (get_edit_proverb id f) = snd (readProverbs f)
  /\ snd (get_add_proverb f) = f
  /\ snd (readProverbs f)
     = match f with Some data => Some data | None => Some "[]" end.
Proof.
  repeat split; try apply readProverbs_file.
  - now rewrite home_run.
  - unfold get_proverb, try_respond, bind, lift, ret.
    destruct (readProverbs f) as [[v|e] f1]; [|reflexivity].
    destruct (as_array v) as [l|]; [|reflexivity].
    destruct (find (id_is id) l) as [pv|]; [|reflexivity].
    now destruct (negb (ToBoolean pv)).
  - unfold get_edit_proverb, try_respond, bind, lift, ret.
    destruct (readProverbs f) as [[v|e] f1]; [|reflexivity].
    destruct (as_array v) as [l|]; [|reflexivity].
    destruct (find (id_is id) l) as [pv|]; [|reflexivity].
    now destruct (negb (ToBoolean pv)).
Qed.

(** ** Showing a record *)

Lemma stored_nonempty f l1 (p : value) l2 :
  stored f = Ok (VArr (l1 ++ p :: l2)) ->
  readProverbs f = (Ok (VArr (l1 ++ p :: l2)), f).
Proof.
  intros Hs. destruct (stored_read _ _ Hs) as (Hr & _).
  destruct f as [data|].
  - now rewrite (readProverbs_keeps data _ eq_refl) in Hr.
  - unfold stored in Hs. rewrite readProverbs_absent in Hs.
    injection Hs as Hs. now destruct l1.
Qed.

(** X5. When the store holds a record with the requested id, the detail
    view and the edit form are rendered with the first such record, and
    the file is left as it was. *)
Theorem get_proverb_renders_first_match
        (f : file) (l1 : list value) (p : value) (l2 : list value) (id : string) :
  stored f = Ok (VArr (l1 ++ p :: l2)) -> first_match id l1 p ->
  get_proverb id f = (Render "proverb-details" [("proverb", p)], f)
  /\ get_edit_proverb id f = (Render "edit-proverb" [("proverb", p)], f).
Proof.
  intros Hs Hm. pose proof (stored_nonempty _ _ _ _ Hs) as Hr.
  destruct (id_is_object _ _ (proj2 Hm)) as [o ->].
  rewrite (get_proverb_run _ _ _ Hr), (get_edit_proverb_run _ _ _ _ Hr).
  now rewrite (find_first _ _ _ _ Hm).
Qed.

Lemma get_proverb_renders_first_match_witness :
  get_proverb "2" (written (VArr sampleProverbs))
  = (Render "proverb-details" [("proverb", sample 1)],
     written (VArr sampleProverbs)).
Proof.
  exact (proj1 (get_proverb_renders_first_match
                  (written (VArr sampleProverbs)) [sample 0] (sample 1)
                  [sample 2; sample 3; sample 4] "2"
                  stored_samples sample_first_match)).
Defined.

(** ** Deleting, whatever the ids *)

Lemma Get_id_readable p : readable p = true -> Get p "id" = Ok (id_of p).
Proof. destruct p; try discriminate; reflexivity. Qed.

Lemma id_is_readable id p :
  readable p = true ->
  id_is id p = Ok (negb (keeps id p)) /\ id_is_not id p = Ok (keeps id p).
Proof.
  intros H. unfold id_is, id_is_not, keeps.
  rewrite (Get_id_readable _ H). now rewrite negb_involutive.
Qed.

Lemma filter_readable id l :
  Forall (fun p => readable p = true) l ->
  filter (id_is_not id) l = Ok (List.filter (keeps id) l).
Proof.
  induction 1 as [|p l Hp Hl IH]; [reflexivity|].
  cbn [filter List.filter].
  rewrite (proj2 (id_is_readable id p Hp)), IH. reflexivity.
Qed.

Lemma filter_length_le {A} (g : A -> bool) l :
  (List.length (List.filter g l) <= List.length l)%nat.
Proof.
  induction l as [|a l IH]; cbn; [lia|]. destruct (g a); cbn; lia.
Qed.

Lemma filter_all {A} (g : A -> bool) l :
  List.length (List.filter g l) = List.length l -> List.filter g l = l.
Proof.
  induction l as [|a l IH]; cbn; [reflexivity|].
  destruct (g a); cbn; intros H.
  - f_equal. apply IH. lia.
  - pose proof (filter_length_le g l). lia.
Qed.

Lemma absent_kept id l :
  Forall (fun p => readable p = true) l -> absent id (List.filter (keeps id) l).
Proof.
  intros H. unfold absent. apply Forall_forall. intros p Hp.
  apply filter_In in Hp. destruct Hp as [Hin Hk].
  rewrite Forall_forall in H.
  rewrite (proj1 (id_is_readable id p (H _ Hin))). now rewrite Hk.
Qed.

Lemma filter_storable (g : value -> bool) l :
  Forall (fun x => storable x = true) l ->
  Forall (fun x => storable x = true) (List.filter g l).
Proof.
  intros H. apply Forall_forall. intros x Hx. apply filter_In in Hx.
  rewrite Forall_forall in H. now apply H.
Qed.

Lemma stored_written_storable l :
  Forall (fun x => storable x = true) l ->
  stored (written (VArr l)) = Ok (VArr l).
Proof.
  intros H. rewrite stored_written; [| |reflexivity].
  - cbn [json_norm]. now rewrite map_json_norm_storable.
  - cbn [wf]. now apply forallb_wf_storable.
Qed.

Lemma delete_run f ps id :
  stored f = Ok (VArr ps) -> Forall (fun p => readable p = true) ps ->
  post_delete_proverb id f
  = (if (List.length ps =? List.length (List.filter (keeps id) ps))%nat
     then (delete_not_found id, snd (readProverbs f))
     else (Redirect "/?success=Proverb deleted successfully",
           written (VArr (List.filter (keeps id) ps))))
  /\ stored (snd (post_delete_proverb id f))
     = Ok (VArr (List.filter (keeps id) ps)).
Proof.
  intros Hs Hr. destruct (stored_read _ _ Hs) as (Hread & Hst & Hs1).
  apply storable_arr in Hst.
  assert (Hrun : post_delete_proverb id f
    = (if (List.length ps =? List.length (List.filter (keeps id) ps))%nat
       then (delete_not_found id, snd (readProverbs f))
       else (Redirect "/?success=Proverb deleted successfully",
             written (VArr (List.filter (keeps id) ps))))).
  { rewrite (post_delete_proverb_run _ _ _ Hread), (filter_readable _ _ Hr).
    reflexivity. }
  split; [exact Hrun|]. rewrite Hrun.
  destruct (Nat.eqb_spec (List.length ps)
              (List.length (List.filter (keeps id) ps))) as [E|_]; cbn [snd].
  - now rewrite (filter_all _ _ (eq_sym E)).
  - now apply stored_written_storable, filter_storable.
Qed.

(** X6. Delete filters: on a store whose elements are all readable it
    keeps, in their order, exactly the records whose id is not the
    requested one, so every record carrying the id goes, also when several
    carry it; it answers "Proverb not found" exactly when nothing was
    dropped. *)
Theorem post_delete_proverb_filters (f : file) (ps : list value) (id : string) :
  stored f = Ok (VArr ps) -> Forall (fun p => readable p = true) ps ->
  stored (snd (post_delete_proverb id f))
  = Ok (VArr (List.filter (keeps id) ps))
  /\ fst (post_delete_proverb id f)
     = (if forallb (keeps id) ps then delete_not_found id
        else Redirect "/?success=Proverb deleted successfully").
Proof.
  intros Hs Hr. destruct (delete_run f ps id Hs Hr) as [Hrun Hst].
  split; [exact Hst|]. rewrite Hrun.
  destruct (forallb (keeps id) ps) eqn:Ha.
  - assert (E : List.filter (keeps id) ps = ps).
    { rewrite forallb_forall in Ha. clear -Ha.
      induction ps as [|p ps IH]; [reflexivity|]. cbn [List.filter].
      rewrite (Ha p (or_introl eq_refl)). f_equal. apply IH.
      intros x Hx. apply Ha. now right. }
    now rewrite E, Nat.eqb_refl.
  - destruct (Nat.eqb_spec (List.length ps)
                (List.length (List.filter (keeps id) ps))) as [E|_];
      [|reflexivity].
    apply eq_sym, filter_all in E. exfalso.
    assert (Hall : forallb (keeps id) ps = true).
    { apply forallb_forall. intros x Hx. rewrite <- E in Hx.
      now apply filter_In in Hx. }
    congruence.
Qed.

Lemma post_delete_proverb_filters_witness :
  stored (snd (post_delete_proverb "2"
                 (written (VArr [sample 1; sample 0; sample 1]))))
  = Ok (VArr [sample 0]).
Proof.
  assert (Hs : stored (written (VArr [sample 1; sample 0; sample 1]))
               = Ok (VArr [sample 1; sample 0; sample 1]))
    by (vm_compute; reflexivity).
  assert (Hr : Forall (fun p => readable p = true) [sample 1; sample 0; sample 1])
    by (repeat constructor).
  exact (proj1 (post_delete_proverb_filters _ _ "2" Hs Hr)).
Defined.

Lemma file_after_read f : exists data, snd (readProverbs f) = Some data.
Proof. rewrite readProverbs_file. destruct f; eauto. Qed.

(** X7. Once Delete has answered, the requested id is gone: on the file
    it leaves, Get-by-id redirects with "Proverb not found" and a second
    Delete answers "Proverb not found", and both leave that file as it
    is. *)
Theorem deleted_id_is_gone (f : file) (ps : list value) (id : string) :
  stored f = Ok (VArr ps) -> Forall (fun p => readable p = true) ps ->
  get_proverb id (snd (post_delete_proverb id f))
  = (Redirect "/?error=Proverb not found", snd (post_delete_proverb id f))
  /\ post_delete_proverb id (snd (post_delete_proverb id f))
     = (delete_not_found id, snd (post_delete_proverb id f)).
Proof.
  intros Hs Hr. destruct (delete_run f ps id Hs Hr) as [Hrun Hst].
  assert (Hsome : exists data, snd (post_delete_proverb id f) = Some data).
  { rewrite Hrun. destruct (_ =? _)%nat; cbn [snd];
      [apply file_after_read | unfold written; eauto]. }
  destruct Hsome as [data Hd].
  destruct (stored_read _ _ Hst) as (Hread & _).
  rewrite (readProverbs_keeps data _ Hd) in Hread.
  pose proof (absent_kept id ps Hr) as Ha.
  split.
  - rewrite (get_proverb_run _ _ _ Hread). now rewrite (find_absent _ _ Ha).
  - rewrite (post_delete_proverb_run _ _ _ Hread).
    rewrite (filter_absent _ _ Ha). now rewrite Nat.eqb_refl.
Qed.

Lemma deleted_id_is_gone_witness :
  fst (get_proverb "2" (snd (post_delete_proverb "2" (written (VArr sampleProverbs)))))
  = Redirect "/?error=Proverb not found".
Proof.
  assert (Hr : Forall (fun p => readable p = true) sampleProverbs)
    by (repeat constructor).
  destruct (deleted_id_is_gone _ _ "2" stored_sampleProverbs Hr) as [H _].
  now rewrite H.
Defined.

(** ** Editing twice, and reading an edit back *)

Lemma defined_idem o : defined (defined o) = defined o.
Proof.
  induction o as [|[k v] o IH]; [reflexivity|].
  cbn [defined List.filter snd]. fold (defined o).
  destruct (negb (is_undefined v)) eqn:E; [|exact IH].
  cbn [defined List.filter snd]. fold (defined (defined o)).
  now rewrite E, IH.
Qed.

Lemma obj_set_same_value o k v :
  obj_get o k = v ->
  defined (obj_set o k v) = defined o
  /\ forall k', obj_get (obj_set o k v) k' = obj_get o k'.
Proof.
  induction o as [|[k0 v0] o IH]; cbn [obj_get obj_set].
  - intros <-. split; [reflexivity|]. intros k'. cbn.
    now destruct (String.eqb k k').
  - destruct (String.eqb_spec k0 k) as [->|Hne].
    + intros ->. split; reflexivity.
    + intros H. destruct (IH H) as [Hd Hg]. split.
      * cbn [defined List.filter snd]. fold (defined o) (defined (obj_set o k v)).
        now rewrite Hd.
      * intros k'. cbn [obj_get]. now rewrite Hg.
Qed.

Lemma obj_sets_same_values kvs : forall o,
  Forall (fun kv => obj_get o (fst kv) = snd kv) kvs ->
  defined (obj_sets o kvs) = defined o.
Proof.
  unfold obj_sets. induction kvs as [|[k v] kvs IH]; intros o H; [reflexivity|].
  inversion H as [|? ? Hk Hrest]; subst. cbn [fst snd] in Hk.
  destruct (obj_set_same_value o k v Hk) as [Hd Hg].
  cbn [fold_left fst snd]. rewrite IH; [exact Hd|].
  apply Forall_forall. intros kv Hin. rewrite Forall_forall in Hrest.
  rewrite Hg. now apply Hrest.
Qed.

Lemma ser_obj_defined d o : ser d (VObj o) = ser d (VObj (defined o)).
Proof. cbn [ser]. now rewrite !flat_map_defined, defined_idem. Qed.

Lemma written_same_fields l1 o o' l2 :
  defined o = defined o' ->
  written (VArr (l1 ++ VObj o :: l2)) = written (VArr (l1 ++ VObj o' :: l2)).
Proof.
  intros E. unfold written. f_equal. cbn [ser]. f_equal.
  rewrite !map_app. cbn [map]. do 2 f_equal.
  now rewrite (ser_obj_defined _ o), (ser_obj_defined _ o'), E.
Qed.

Lemma edited_again o body :
  NoDup (map fst (spread (edited (VObj o) body))) ->
  defined (spread (edited (VObj (defined (spread (edited (VObj o) body)))) body))
  = defined (spread (edited (VObj o) body)).
Proof.
  intros Hk. set (o' := defined (spread (edited (VObj o) body))).
  unfold edited at 1. cbn [spread].
  rewrite obj_sets_same_values; [apply defined_idem|].
  repeat constructor; cbn [fst snd]; unfold o';
    rewrite obj_get_defined by assumption;
    apply edited_form_field; cbn; tauto.
Qed.

Lemma edited_first_match id l1 o body :
  first_match id l1 (VObj o) ->
  NoDup (map fst (spread (edited (VObj o) body))) ->
  first_match id l1 (VObj (defined (spread (edited (VObj o) body)))).
Proof.
  intros [Ha Hp] Hk. split; [exact Ha|].
  unfold id_is in *. cbn [Get] in *.
  rewrite obj_get_defined by assumption.
  rewrite edited_other_field; [exact Hp|]. cbn.
  intros H. repeat (destruct H as [H|H]; [discriminate H|]). exact H.
Qed.

(** X8. Edit-submit is idempotent: submitting the same form for the same
    id a second time gives the same response and leaves the file, byte
    for byte, as the first submission left it. *)
Theorem post_edit_proverb_twice
        (f : file) (l1 : list value) (p : value) (l2 : list value)
        (id : string) (body : obj) :
  stored f = Ok (VArr (l1 ++ p :: l2)) -> first_match id l1 p ->
  record_ok (VObj body) = true ->
  post_edit_proverb id body (snd (post_edit_proverb id body f))
  = post_edit_proverb id body f.
Proof.
  intros Hs Hm Hb. destruct (edit_found _ _ _ _ _ _ Hs Hm Hb) as (Hrun & Hst & Hk).
  destruct (id_is_object _ _ (proj2 Hm)) as [o ->].
  rewrite Hrun. cbn [snd].
  pose proof (edited_first_match id l1 o body Hm Hk) as Hm'.
  destruct (edit_found _ _ _ _ _ _ Hst Hm' Hb) as (Hrun' & _).
  rewrite Hrun'. f_equal. unfold edited at 1 3.
  apply written_same_fields. now apply edited_again.
Qed.

Lemma post_edit_proverb_twice_witness :
  post_edit_proverb "2" sample_form
    (snd (post_edit_proverb "2" sample_form (written (VArr sampleProverbs))))
  = post_edit_proverb "2" sample_form (written (VArr sampleProverbs)).
Proof.
  exact (post_edit_proverb_twice
           (written (VArr sampleProverbs)) [sample 0] (sample 1)
           [sample 2; sample 3; sample 4] "2" sample_form
           stored_samples sample_first_match eq_refl).
Defined.

(** X9. An edit is read back: after a successful Edit-submit, Get-by-id
    with the same id parameter renders the edited record, whose five form
    fields are the submitted values, and leaves the file as it is. *)
Theorem get_proverb_after_edit
        (f : file) (l1 : list value) (p : value) (l2 : list value)
        (id : string) (body : obj) :
  stored f = Ok (VArr (l1 ++ p :: l2)) -> first_match id l1 p ->
  record_ok (VObj body) = true ->
  exists o',
    get_proverb id (snd (post_edit_proverb id body f))
    = (Render "proverb-details" [("proverb", VObj o')],
       snd (post_edit_proverb id body f))
    /\ (forall k, In k form_fields -> Get (VObj o') k = Ok (obj_get body k))
    /\ id_of (VObj o') = id_of p.
Proof.
  intros Hs Hm Hb. destruct (edit_found _ _ _ _ _ _ Hs Hm Hb) as (Hrun & Hst & Hk).
  destruct (id_is_object _ _ (proj2 Hm)) as [o ->].
  exists (defined (spread (edited (VObj o) body))).
  rewrite Hrun. cbn [snd].
  pose proof (edited_first_match id l1 o body Hm Hk) as Hm'.
  pose proof (stored_nonempty _ _ _ _ Hst) as Hr.
  repeat split.
  - rewrite (get_proverb_run _ _ _ Hr). now rewrite (find_first _ _ _ _ Hm').
  - intros k Hin. cbn [Get]. f_equal. rewrite obj_get_defined by assumption.
    now apply edited_form_field.
  - unfold id_of. cbn [spread]. rewrite obj_get_defined by assumption.
    apply edited_other_field. cbn.
    intros H. repeat (destruct H as [H|H]; [discriminate H|]). exact H.
Qed.

Lemma get_proverb_after_edit_witness :
  exists o',
    fst (get_proverb "2" (snd (post_edit_proverb "2" sample_form
                                 (written (VArr sampleProverbs)))))
    = Render "proverb-details" [("proverb", VObj o')]
    /\ Get (VObj o') "translationEn" = Ok (VStr "english").
Proof.
  destruct (get_proverb_after_edit
              (written (VArr sampleProverbs)) [sample 0] (sample 1)
              [sample 2; sample 3; sample 4] "2" sample_form
              stored_samples sample_first_match eq_refl)
    as (o' & H1 & H2 & _).
  exists o'. split; [now rewrite H1|]. apply H2. cbn. tauto.
Defined.

(** ** Initializing twice *)

Lemma initializeData_existing data :
  initializeData (Some data)
  = match JSON_parse data with
    | None => (Throw SyntaxError, Some data)
    | Some v =>
        match Get v "length" with
        | Throw e => (Throw e, Some data)
        | Ok len =>
            if strict_eq_num len (Int 0)
            then (Ok tt, written (VArr sampleProverbs))
            else (Ok tt, Some data)
        end
    end.
Proof.
  unfold initializeData, bind, lift. rewrite readProverbs_existing.
  destruct (JSON_parse data) as [v|]; [|reflexivity].
  destruct (Get v "length") as [len|e]; [|reflexivity].
  now destruct (strict_eq_num len (Int 0)).
Qed.

Lemma initializeData_seeded :
  initializeData (written (VArr sampleProverbs))
  = (Ok tt, written (VArr sampleProverbs)).
Proof.
  pose proof (stored_nonempty _ [] (sample 0)
                [sample 1; sample 2; sample 3; sample 4]
                stored_sampleProverbs) as Hr.
  unfold initializeData, bind, lift. now rewrite Hr.
Qed.

(** X10. Initialization is idempotent: run a second time on the file the
    first run left, it returns the same result and leaves the same file,
    whatever the file held at the start (absent, malformed, empty,
    populated). *)
Theorem initializeData_twice (f : file) :
  initializeData (snd (initializeData f)) = initializeData f.
Proof.
  destruct f as [data|].
  - rewrite (initializeData_existing data).
    destruct (JSON_parse data) as [v|] eqn:Ep; cbn [snd].
    + destruct (Get v "length") as [len|e] eqn:El; cbn [snd].
      * destruct (strict_eq_num len (Int 0)) eqn:E0; cbn [snd].
        -- apply initializeData_seeded.
        -- now rewrite initializeData_existing, Ep, El, E0.
      * now rewrite initializeData_existing, Ep, El.
    + now rewrite initializeData_existing, Ep.
  - change (initializeData None) with (Ok tt, written (VArr sampleProverbs)).
    apply initializeData_seeded.
Qed.

(** ** Writing back what was read *)





(** ** An id parameter that is not a number *)

Lemma absent_of_NaN id l :
  parseInt id = NaN -> Forall (fun p => readable p = true) l -> absent id l.
Proof.
  intros Hn Hr. unfold absent. apply Forall_forall. intros p Hp.
  rewrite Forall_forall in Hr.
  rewrite (proj1 (id_is_readable id p (Hr _ Hp))). unfold keeps.
  rewrite Hn, negb_involutive. f_equal.
  destruct (id_of p) as [| | |[|z]| | |]; reflexivity.
Qed.

(** X13. An id parameter in which [parseInt] finds no number addresses
    nothing: on any store whose elements are readable, Get-by-id, the edit
    form and Edit-submit redirect with "Proverb not found", Delete answers
    "Proverb not found", and the stored collection is unchanged. *)
Theorem non_numeric_id_not_found
        (f : file) (ps : list value) (id : string) (body : obj) :
  parseInt id = NaN ->
  stored f = Ok (VArr ps) -> Forall (fun p => readable p = true) ps ->
  fst (get_proverb id f) = Redirect "/?error=Proverb not found"
  /\ fst (get_edit_proverb id f) = Redirect "/?error=Proverb not found"
  /\ fst (post_edit_proverb id body f) = Redirect "/?error=Proverb not found"
  /\ fst (post_delete_proverb id f) = delete_not_found id
  /\ stored (snd (post_edit_proverb id body f)) = Ok (VArr ps)
  /\ stored (snd (post_delete_proverb id f)) = Ok (VArr ps).
Proof.
  intros Hn Hs Hr. destruct (stored_read _ _ Hs) as (Hread & _ & Hs1).
  pose proof (absent_of_NaN id ps Hn Hr) as Ha.
  rewrite (get_proverb_run _ _ _ Hread), (get_edit_proverb_run _ _ _ _ Hread).
  rewrite (post_edit_proverb_run _ _ _ Hread), (post_delete_proverb_run _ _ _ Hread).
  unfold findIndex.
  rewrite (find_absent _ _ Ha), (findIndex_from_absent _ _ _ Ha).
  rewrite (filter_absent _ _ Ha), Nat.eqb_refl. cbn [fst snd Z.eqb].
  repeat split; assumption.
Qed.

Lemma non_numeric_id_not_found_witness :
  fst (get_proverb "abc" (written (VArr sampleProverbs)))
  = Redirect "/?error=Proverb not found".
Proof.
  assert (Hr : Forall (fun p => readable p = true) sampleProverbs)
    by (repeat constructor).
  exact (proj1 (non_numeric_id_not_found _ _ "abc" [] eq_refl
                  stored_sampleProverbs Hr)).
Defined.

(** ** The decimal text of an id *)













(** ** Using a record that was just created *)






(** ** What a create stores *)



(** ** Creating from nothing *)

Lemma count_up_succ k : count_up (S k) = (count_up k ++ [Z.of_nat k + 1])%list.
Proof.
  unfold count_up. rewrite seq_S, map_app. cbn [map]. do 2 f_equal. lia.
Qed.

Lemma count_up_in k z : In z (count_up k) <-> 1 <= z <= Z.of_nat k.
Proof.
  unfold count_up. rewrite in_map_iff. split.
  - intros (n & <- & Hn). apply in_seq in Hn. lia.
  - intros H. exists (Z.to_nat z). split; [lia|]. apply in_seq. lia.
Qed.

Lemma expected_id_count_up l k :
  int_ids l = count_up k -> expected_id l = Z.of_nat k + 1.
Proof.
  intros E. unfold expected_id. rewrite E.
  destruct (count_up k) as [|z zs] eqn:Ek.
  - destruct k; [reflexivity|]. rewrite count_up_succ in Ek.
    now destruct (count_up k).
  - destruct (fold_max_bounds zs z) as (Hz & Hzs & Hin).
    rewrite <- Ek in Hin. apply count_up_in in Hin.
    assert (Hk : In (Z.of_nat k) (z :: zs)).
    { rewrite <- Ek. apply count_up_in.
      assert (In z (count_up k)) by (rewrite Ek; now left).
      apply count_up_in in H. lia. }
    destruct Hk as [Hk|Hk]; [lia|].
    rewrite Forall_forall in Hzs. specialize (Hzs _ Hk). lia.
Qed.

Lemma int_ids_app l1 l2 : int_ids (l1 ++ l2) = (int_ids l1 ++ int_ids l2)%list.
Proof. unfold int_ids. apply flat_map_app. Qed.

Lemma creates_count_up bodies : forall f ps k,
  stored f = Ok (VArr ps) -> int_ids ps = count_up k ->
  Forall (fun p => int_id_below (Z.of_nat k + 1) p = true) ps ->
  Z.of_nat (k + List.length bodies) <= two53 ->
  Forall valid_body bodies ->
  exists ps',
    stored (creates bodies f) = Ok (VArr ps')
    /\ int_ids ps' = count_up (k + List.length bodies)
    /\ Forall (fun p => int_id_below (Z.of_nat (k + List.length bodies) + 1) p = true) ps'.
Proof.
  induction bodies as [|body bodies IH]; intros f ps k Hs Hi Hb Hn Hv.
  - exists ps. rewrite Nat.add_0_r. auto.
  - inversion Hv as [|? ? Hv1 Hv2]; subst. cbn [List.length] in *.
    assert (Hk : Z.of_nat k + 1 <= two53) by lia.
    pose proof (int_id_below_mono _ _ ps Hk Hb) as Hb53.
    destruct (create_run _ _ _ Hs Hb53 Hv1) as (Hrun & Hst).
    rewrite (expected_id_count_up _ _ Hi) in *.
    destruct (IH (snd (post_add_proverb body f))
                 (ps ++ [newProverb (Int (Z.of_nat k + 1)) body])%list (S k))
      as (ps' & H1 & H2 & H3).
    + now rewrite Hrun.
    + rewrite int_ids_app, Hi, count_up_succ. reflexivity.
    + apply Forall_app. split.
      * apply (int_id_below_mono (Z.of_nat k + 1)); [lia | exact Hb].
      * repeat constructor. cbn. apply Z.ltb_lt. lia.
    + lia.
    + exact Hv2.
    + exists ps'. cbn [creates]. rewrite <- Nat.add_succ_comm. auto.
Qed.

(** X17. Ids count up from 1: starting with no backing file, [n]
    successful creates (at most 2^53 of them) leave a collection of [n]
    records whose ids are 1, 2, ..., [n] in order of creation. *)
Theorem creates_from_nothing_count_up (bodies : list obj) :
  Forall valid_body bodies ->
  Z.of_nat (List.length bodies) <= two53 ->
  exists ps,
    stored (creates bodies None) = Ok (VArr ps)
    /\ List.length ps = List.length bodies
    /\ ids_of ps
       = map (fun z => VNum (Int z)) (count_up (List.length bodies)).
Proof.
  intros Hv Hn.
  destruct (creates_count_up bodies None [] 0%nat eq_refl eq_refl
              (Forall_nil _) Hn Hv) as (ps & H1 & H2 & H3).
  cbn [Nat.add] in *. exists ps.
  destruct (ids_of_ints _ _ H3) as (E & _ & _ & Hlen).
  split; [exact H1|]. split.
  - rewrite <- Hlen, H2. unfold count_up. now rewrite length_map, length_seq.
  - now rewrite E, H2.
Qed.

Lemma creates_from_nothing_count_up_witness :
  exists ps,
    stored (creates [sample_body; sample_body; sample_body] None) = Ok (VArr ps)
    /\ ids_of ps = [VNum (Int 1); VNum (Int 2); VNum (Int 3)].
Proof.
  assert (Hv : valid_body sample_body) by (split; reflexivity).
  destruct (creates_from_nothing_count_up [sample_body; sample_body; sample_body])
    as (ps & H1 & _ & H2).
  - repeat constructor; exact Hv.
  - unfold two53. cbn. lia.
  - exists ps. split; assumption.
Defined.
